(** * Agent Builder wizard: a shallow embedding of the frontend logic

    The program is the single-page wizard of the Agent Builder
    (builder script, "Agent Builder — Frontend Logic").  Its whole
    behaviour is a set of event handlers that read and write one global
    object [state] and the document.  The embedding keeps that shape:

    - [State] is the global [state] object, one field per property the
      handlers below touch, together with [page], the part of the document
      the handlers read back (form groups with their [data-showif-*]
      attributes, the two inputs of the configuration step);
    - every handler is a function [... -> State -> State];
    - an [await fetch(...)] is split at the suspension point: the part before
      it produces the request, the part after it takes the outcome of the
      call as an argument;
    - JS objects used as dictionaries are [gmap string _]; a missing
      property ([undefined]) is [None].

    Limits of the model, stated once:

    - strings are sequences of code units in the range 0..255, without the
      code unit 0 where a string is written into markup;
    - JSON [null] as a field default is not modelled: a default is a
      string, an array of strings, or absent;
    - a dictionary is read as the map of its own properties.  The names
      every JS object inherits ([inheritedName]: [constructor],
      [toString], [__proto__], ...) read as present in the source even
      when they are not own properties; [setParam] and [toggleMultiParam]
      model what that does to a tool id, and the theorems about arbitrary
      ids and keys exclude those names by hypothesis ([plainName]).
      Elsewhere (schema keys, prompt-parameter keys, [toggleTool]) the
      names are taken to be plain;
    - the order of [Object.keys] and [Object.entries] is not modelled:
      lists made from a dictionary (the tools of the payload, the form
      groups of the parameter step) come in the order of [map_to_list];
    - markup is modelled by what the handlers read back from it.  The
      agent name, written into the [value] attribute with its double
      quotes unescaped, is cut at the first one ([inputValueOf]); what
      the rest of such a text does to the surrounding markup is not
      modelled, and no theorem states what the configuration form shows
      for an arbitrary draft.  Tool ids, keys and [show_if] values come
      from the catalog and are written into attributes as they are; they
      are taken to be free of the characters markup gives a meaning to. *)

From stdpp Require Import gmap strings list fin_maps.
From Stdlib Require Import Ascii.

(* ================================================================== *)
(** ** JavaScript primitives used by the handlers *)
(* ================================================================== *)

Module Js.

(** A parameter value: what a form control or a catalog default holds. *)
Inductive jsval :=
| JStr (s : string)
| JArr (l : list string).

#[global] Instance jsval_eq_dec : EqDecision jsval.
Proof. solve_decision. Defined.

(** White space removed by [String.prototype.trim], for code units below
    256: TAB, LF, VT, FF, CR, SPACE and NBSP. *)
Definition is_ws (c : ascii) : bool :=
  let n := nat_of_ascii c in
  (n =? 9) || (n =? 10) || (n =? 11) || (n =? 12) || (n =? 13)
  || (n =? 32) || (n =? 160).

Fixpoint trimStart (s : string) : string :=
  match s with
  | EmptyString => EmptyString
  | String c r => if is_ws c then trimStart r else s
  end.

Fixpoint trimEnd (s : string) : string :=
  match s with
  | EmptyString => EmptyString
  | String c r =>
      match trimEnd r with
      | EmptyString => if is_ws c then EmptyString else String c EmptyString
      | r' => String c r'
      end
  end.

(** [s.trim()] *)
Definition trim (s : string) : string := trimEnd (trimStart s).

(** Truthiness of a string: only the empty string is falsy. *)
Definition truthy (s : string) : bool :=
  match s with
  | EmptyString => false
  | String _ _ => true
  end.

(** [a || b] on strings. *)
Definition or_else (a b : string) : string := if truthy a then a else b.

(** [Array.isArray(v) ? [...v] : []] *)
Definition arrayOrEmpty (v : option jsval) : list string :=
  match v with
  | Some (JArr l) => l
  | _ => []
  end.

(** [arr.includes(x)] *)
Definition includes (arr : list string) (x : string) : bool :=
  bool_decide (x ∈ arr).

(** [arr.filter(y => y !== x)] *)
Definition without (x : string) (arr : list string) : list string :=
  filter (λ y, y ≠ x) arr.

(** [lines.join('\n')] *)
Definition newline : string := String (ascii_of_nat 10) EmptyString.

Fixpoint join (sep : string) (l : list string) : string :=
  match l with
  | [] => EmptyString
  | [x] => x
  | x :: r => x +:+ sep +:+ join sep r
  end.

(** The names every object inherits from [Object.prototype]: reading
    [obj[name]] gives a value for them whether or not [obj] has the
    property itself. *)
Definition objectPrototypeNames : list string :=
  ["constructor"; "__defineGetter__"; "__defineSetter__"; "hasOwnProperty";
   "__lookupGetter__"; "__lookupSetter__"; "isPrototypeOf";
   "propertyIsEnumerable"; "toString"; "valueOf"; "__proto__";
   "toLocaleString"].

Definition inheritedName (name : string) : bool :=
  bool_decide (name ∈ objectPrototypeNames).

(** A name that is a property of an object only when the object has it
    itself. *)
Definition plainName (name : string) : Prop := inheritedName name = false.

(** A text up to its first double quote. *)
Fixpoint upToQuote (s : string) : string :=
  match s with
  | EmptyString => EmptyString
  | String c r =>
      if (nat_of_ascii c =? 34) then EmptyString else String c (upToQuote r)
  end.

(** A text without its LF and CR. *)
Fixpoint stripNewlines (s : string) : string :=
  match s with
  | EmptyString => EmptyString
  | String c r =>
      if (nat_of_ascii c =? 10) || (nat_of_ascii c =? 13) then stripNewlines r
      else String c (stripNewlines r)
  end.

(** The value of [<input type="text" value="${esc(s)}">].  [esc] escapes
    [&], [<] and [>], which the attribute parser reads back, and leaves
    the double quote alone, so the attribute ends at the first one; the
    value of a text input is its attribute with the newlines stripped. *)
Definition inputValueOf (s : string) : string := stripNewlines (upToQuote s).

(** CR LF and CR read as LF, as the parser does before anything else. *)
Fixpoint normalizeNewlines (s : string) : string :=
  match s with
  | EmptyString => EmptyString
  | String c r =>
      if (nat_of_ascii c =? 13) then
        String (ascii_of_nat 10)
          (match r with
           | String c' r' =>
               if (nat_of_ascii c' =? 10) then normalizeNewlines r'
               else normalizeNewlines r
           | EmptyString => EmptyString
           end)
      else String c (normalizeNewlines r)
  end.

(** The value of [<textarea>${esc(s)}</textarea>]: the text with its
    newlines normalised, less one newline right after the start tag,
    which the parser drops. *)
Definition textareaValueOf (s : string) : string :=
  match normalizeNewlines s with
  | String c r => if (nat_of_ascii c =? 10) then r else String c r
  | EmptyString => EmptyString
  end.

End Js.
Import Js.

(* ================================================================== *)
(** ** Data model *)
(* ================================================================== *)

(** The two halves of a tool's schema; in the source the section is the
    property name used to index both the catalog entry and the selection
    entry. *)
Inductive section := deploy_params | runtime_params.

#[global] Instance section_eq_dec : EqDecision section.
Proof. solve_decision. Defined.

(** One entry of [detail.deploy_params] / [detail.runtime_params]. *)
Record ParamField := {
  pf_label : string;
  pf_type : string;
  pf_default : option jsval;         (* [None]: the property is absent *)
  pf_required : bool;
  pf_options : list string;
  pf_placeholder : string;
  pf_description : string;
  pf_show_if : option (string * string)  (* first entry of [show_if] *)
}.

(** [state.toolDetails[id]], the answer of [GET /api/tools/{id}]. *)
Record ToolDetail := {
  td_name : string;
  td_icon : string;
  td_deploy_params : gmap string ParamField;
  td_runtime_params : gmap string ParamField
}.

Definition td_section (d : ToolDetail) (sec : section) : gmap string ParamField :=
  match sec with
  | deploy_params => td_deploy_params d
  | runtime_params => td_runtime_params d
  end.

(** [state.selected[id]]: the overrides typed in for an active tool. *)
Record SelEntry := {
  sel_deploy_params : gmap string jsval;
  sel_runtime_params : gmap string jsval
}.

Definition sel_section (e : SelEntry) (sec : section) : gmap string jsval :=
  match sec with
  | deploy_params => sel_deploy_params e
  | runtime_params => sel_runtime_params e
  end.

(** [{ deploy_params: {}, runtime_params: {} }] *)
Definition freshEntry : SelEntry :=
  {| sel_deploy_params := ∅; sel_runtime_params := ∅ |}.

(** [e[section][key] = value] *)
Definition sel_store (sec : section) (key : string) (value : jsval)
    (e : SelEntry) : SelEntry :=
  match sec with
  | deploy_params =>
      {| sel_deploy_params := <[key := value]> (sel_deploy_params e);
         sel_runtime_params := sel_runtime_params e |}
  | runtime_params =>
      {| sel_deploy_params := sel_deploy_params e;
         sel_runtime_params := <[key := value]> (sel_runtime_params e) |}
  end.

Record PromptParam := {
  pp_key : string;
  pp_label : string;
  pp_type : string;
  pp_options : list string;
  pp_default : string;               (* absent is the empty string *)
  pp_required : bool;
  pp_description : string;
  pp_placeholder : string
}.

(** The record answered by [POST /api/agents] and [GET /api/agents/{name}]. *)
Record Agent := {
  ag_name : string;
  ag_id : string;
  ag_version : nat;
  ag_prompt_params : list PromptParam   (* absent is the empty list *)
}.

Inductive Role := user | assistant | context.

#[global] Instance role_eq_dec : EqDecision Role.
Proof. solve_decision. Defined.

Record Message := {
  role : Role;
  content : string;
  toolCalls : option (list string)
}.

(** A rendered [<div class="form-group">] of the parameter step, with the
    [data-showif-*] attributes written by [renderParamField] and the
    [style.display] written by [handleShowIf] ([true] is shown). *)
Record FormGroup := {
  fg_tool : string;
  fg_section : section;
  fg_key : string;
  fg_showif : option (string * string);
  fg_display : bool
}.

(** What [#step-content] holds. *)
Inductive Page :=
| PageBlank
| PageCatalog
| PageParams (groups : list FormGroup)
| PageConfig (nameInput instrInput : string) (deployDisabled : bool)
| PageDeploying
| PageDeployFailed (message : string)
| PageChatParamForm
| PageChat
| PageLoading.

Definition formGroups (p : Page) : list FormGroup :=
  match p with
  | PageParams gs => gs
  | _ => []
  end.

(** The global [state] object and the document. *)
Record State := {
  step : nat;
  toolDetails : gmap string ToolDetail;
  selected : gmap string SelEntry;
  agentName : string;
  agentModel : string;
  instructions : string;
  deployedAgent : option Agent;
  chatHistory : list Message;
  previousResponseId : option string;
  promptParams : list PromptParam;
  paramValues : gmap string string;
  chatParamsConfirmed : bool;
  page : Page
}.

Definition initialState : State := {|
  step := 1;
  toolDetails := ∅;
  selected := ∅;
  agentName := "";
  agentModel := "gpt-4.1";
  instructions := "";
  deployedAgent := None;
  chatHistory := [];
  previousResponseId := None;
  promptParams := [];
  paramValues := ∅;
  chatParamsConfirmed := false;
  page := PageBlank
|}.

(** Assignments [state.x = v]. *)
Definition set_step (v : nat) (st : State) : State :=
  {| step := v; toolDetails := toolDetails st; selected := selected st;
     agentName := agentName st; agentModel := agentModel st;
     instructions := instructions st; deployedAgent := deployedAgent st;
     chatHistory := chatHistory st; previousResponseId := previousResponseId st;
     promptParams := promptParams st; paramValues := paramValues st;
     chatParamsConfirmed := chatParamsConfirmed st; page := page st |}.

Definition set_toolDetails (v : gmap string ToolDetail) (st : State) : State :=
  {| step := step st; toolDetails := v; selected := selected st;
     agentName := agentName st; agentModel := agentModel st;
     instructions := instructions st; deployedAgent := deployedAgent st;
     chatHistory := chatHistory st; previousResponseId := previousResponseId st;
     promptParams := promptParams st; paramValues := paramValues st;
     chatParamsConfirmed := chatParamsConfirmed st; page := page st |}.

Definition set_selected (v : gmap string SelEntry) (st : State) : State :=
  {| step := step st; toolDetails := toolDetails st; selected := v;
     agentName := agentName st; agentModel := agentModel st;
     instructions := instructions st; deployedAgent := deployedAgent st;
     chatHistory := chatHistory st; previousResponseId := previousResponseId st;
     promptParams := promptParams st; paramValues := paramValues st;
     chatParamsConfirmed := chatParamsConfirmed st; page := page st |}.

Definition set_agentName (v : string) (st : State) : State :=
  {| step := step st; toolDetails := toolDetails st; selected := selected st;
     agentName := v; agentModel := agentModel st;
     instructions := instructions st; deployedAgent := deployedAgent st;
     chatHistory := chatHistory st; previousResponseId := previousResponseId st;
     promptParams := promptParams st; paramValues := paramValues st;
     chatParamsConfirmed := chatParamsConfirmed st; page := page st |}.

Definition set_instructions (v : string) (st : State) : State :=
  {| step := step st; toolDetails := toolDetails st; selected := selected st;
     agentName := agentName st; agentModel := agentModel st;
     instructions := v; deployedAgent := deployedAgent st;
     chatHistory := chatHistory st; previousResponseId := previousResponseId st;
     promptParams := promptParams st; paramValues := paramValues st;
     chatParamsConfirmed := chatParamsConfirmed st; page := page st |}.

Definition set_deployedAgent (v : option Agent) (st : State) : State :=
  {| step := step st; toolDetails := toolDetails st; selected := selected st;
     agentName := agentName st; agentModel := agentModel st;
     instructions := instructions st; deployedAgent := v;
     chatHistory := chatHistory st; previousResponseId := previousResponseId st;
     promptParams := promptParams st; paramValues := paramValues st;
     chatParamsConfirmed := chatParamsConfirmed st; page := page st |}.

Definition set_chatHistory (v : list Message) (st : State) : State :=
  {| step := step st; toolDetails := toolDetails st; selected := selected st;
     agentName := agentName st; agentModel := agentModel st;
     instructions := instructions st; deployedAgent := deployedAgent st;
     chatHistory := v; previousResponseId := previousResponseId st;
     promptParams := promptParams st; paramValues := paramValues st;
     chatParamsConfirmed := chatParamsConfirmed st; page := page st |}.

Definition set_previousResponseId (v : option string) (st : State) : State :=
  {| step := step st; toolDetails := toolDetails st; selected := selected st;
     agentName := agentName st; agentModel := agentModel st;
     instructions := instructions st; deployedAgent := deployedAgent st;
     chatHistory := chatHistory st; previousResponseId := v;
     promptParams := promptParams st; paramValues := paramValues st;
     chatParamsConfirmed := chatParamsConfirmed st; page := page st |}.

Definition set_promptParams (v : list PromptParam) (st : State) : State :=
  {| step := step st; toolDetails := toolDetails st; selected := selected st;
     agentName := agentName st; agentModel := agentModel st;
     instructions := instructions st; deployedAgent := deployedAgent st;
     chatHistory := chatHistory st; previousResponseId := previousResponseId st;
     promptParams := v; paramValues := paramValues st;
     chatParamsConfirmed := chatParamsConfirmed st; page := page st |}.

Definition set_paramValues (v : gmap string string) (st : State) : State :=
  {| step := step st; toolDetails := toolDetails st; selected := selected st;
     agentName := agentName st; agentModel := agentModel st;
     instructions := instructions st; deployedAgent := deployedAgent st;
     chatHistory := chatHistory st; previousResponseId := previousResponseId st;
     promptParams := promptParams st; paramValues := v;
     chatParamsConfirmed := chatParamsConfirmed st; page := page st |}.

Definition set_chatParamsConfirmed (v : bool) (st : State) : State :=
  {| step := step st; toolDetails := toolDetails st; selected := selected st;
     agentName := agentName st; agentModel := agentModel st;
     instructions := instructions st; deployedAgent := deployedAgent st;
     chatHistory := chatHistory st; previousResponseId := previousResponseId st;
     promptParams := promptParams st; paramValues := paramValues st;
     chatParamsConfirmed := v; page := page st |}.

Definition set_page (v : Page) (st : State) : State :=
  {| step := step st; toolDetails := toolDetails st; selected := selected st;
     agentName := agentName st; agentModel := agentModel st;
     instructions := instructions st; deployedAgent := deployedAgent st;
     chatHistory := chatHistory st; previousResponseId := previousResponseId st;
     promptParams := promptParams st; paramValues := paramValues st;
     chatParamsConfirmed := chatParamsConfirmed st; page := v |}.

(** Outcome of [POST /api/agents]: the created agent, or the message of
    the error thrown for a non-ok response. *)
Inductive DeployResult :=
| DeployOk (agent : Agent)
| DeployErr (message : string).

(** One element of [payload.tools]. *)
Record ToolPayload := {
  tp_tool_id : string;
  tp_deploy_params : gmap string jsval;
  tp_runtime_params : gmap string jsval
}.

Definition tp_section (t : ToolPayload) (sec : section) : gmap string jsval :=
  match sec with
  | deploy_params => tp_deploy_params t
  | runtime_params => tp_runtime_params t
  end.

(** The body of [POST /api/agents]. *)
Record Payload := {
  p_name : string;
  p_model : string;
  p_instructions : string;
  p_tools : list ToolPayload;
  p_prompt_params : list PromptParam
}.

(** The body of [POST /api/chat]. *)
Record ChatRequest := {
  cq_agent_name : string;
  cq_message : string;
  cq_previous_response_id : option string;
  cq_param_values : gmap string string
}.

Record ChatData := {
  cd_text : string;
  cd_response_id : string;
  cd_tool_calls : list string
}.

Inductive ChatResult :=
| ChatOk (data : ChatData)
| ChatErr (message : string).

(* ================================================================== *)
(** ** The handlers *)
(* ================================================================== *)

Section Wizard.

(** [GET /api/tools/{id}], used by [renderToolParams] for the tools whose
    details are not cached yet: the parsed body of the answer (whatever
    its status, [res.ok] is not looked at), or [None] when the fetch is
    rejected or the body is not a JSON object. *)
Variable fetchTool : string → option ToolDetail.

(** *** Step 2: tool parameters *)

(** The value [renderParamField] puts in the control:
    [stored !== undefined ? stored : (param.default ?? '')]. *)
Definition fieldValue (toolId : string) (sec : section) (key : string)
    (param : ParamField) (st : State) : jsval :=
  match selected st !! toolId ≫= (λ e, sel_section e sec !! key) with
  | Some stored => stored
  | None => default (JStr "") (pf_default param)
  end.

(** The chips [renderParamField] marks selected for a [multi_select]:
    [Array.isArray(value) ? value : []]. *)
Definition selectedChips (toolId : string) (sec : section) (key : string)
    (param : ParamField) (st : State) : list string :=
  arrayOrEmpty (Some (fieldValue toolId sec key param st)).

Definition renderParamField (toolId : string) (sec : section) (key : string)
    (param : ParamField) : FormGroup :=
  {| fg_tool := toolId; fg_section := sec; fg_key := key;
     fg_showif := pf_show_if param; fg_display := true |}.

(** [state.selected[toolId]?.[section]?.[condKey]
      ?? state.toolDetails[toolId]?.[section]?.[condKey]?.default ?? ''] *)
Definition currentVal (toolId : string) (sec : section) (condKey : string)
    (st : State) : jsval :=
  match selected st !! toolId ≫= (λ e, sel_section e sec !! condKey) with
  | Some v => v
  | None =>
      match (toolDetails st !! toolId ≫= (λ d, td_section d sec !! condKey))
            ≫= pf_default with
      | Some d => d
      | None => JStr ""
      end
  end.

(** The body of the [forEach] of [handleShowIf] on one element. *)
Definition showIf (st : State) (g : FormGroup) : FormGroup :=
  match fg_showif g with
  | None => g
  | Some (condKey, condVal) =>
      {| fg_tool := fg_tool g; fg_section := fg_section g;
         fg_key := fg_key g; fg_showif := fg_showif g;
         fg_display :=
           bool_decide
             (currentVal (fg_tool g) (fg_section g) condKey st = JStr condVal) |}
  end.

Definition handleShowIf (st : State) : State :=
  match page st with
  | PageParams gs => set_page (PageParams (showIf st <$> gs)) st
  | _ => st
  end.

Definition renderSection (toolId : string) (sec : section)
    (fields : gmap string ParamField) : list FormGroup :=
  (λ kv, renderParamField toolId sec kv.1 kv.2) <$> map_to_list fields.

Definition renderTool (details : gmap string ToolDetail) (id : string)
    : list FormGroup :=
  match details !! id with
  | Some detail =>
      renderSection id deploy_params (td_deploy_params detail)
      ++ renderSection id runtime_params (td_runtime_params detail)
  | None => []
  end.

(** [state.toolDetails[id] = await res.json()] for every id of [toFetch];
    a fetch that fails writes nothing, the others still write. *)
Definition fetchMissing (ids : list string) (details : gmap string ToolDetail)
    : gmap string ToolDetail :=
  foldl (λ td id, match td !! id with
                  | Some _ => td
                  | None => match fetchTool id with
                            | Some detail => <[id := detail]> td
                            | None => td
                            end
                  end) details ids.

(** When one of the fetches fails, [Promise.all] rejects and the function
    ends there, nothing catching it: the page stays on the loading
    overlay. *)
Definition renderToolParams (st : State) : State :=
  let toolIds := (map_to_list (selected st)).*1 in
  match toolIds with
  | [] => set_page (PageParams []) st
  | _ =>
      let st1 := set_toolDetails (fetchMissing toolIds (toolDetails st)) st in
      if forallb (λ id, bool_decide (is_Some (toolDetails st1 !! id))) toolIds
      then handleShowIf
             (set_page (PageParams (mbind (renderTool (toolDetails st1)) toolIds)) st1)
      else set_page PageLoading st1
  end.

(** *** Step 1, 3, 4 (before the call), 5 *)

Definition renderToolCatalog (st : State) : State := set_page PageCatalog st.

(** The form is written as markup from [state]: the name goes into the
    [value] attribute of [#agent-name], the instructions into the content
    of [#agent-instructions], both through [esc]; the button is disabled
    on the untrimmed values. *)
Definition renderAgentConfig (st : State) : State :=
  set_page
    (PageConfig (inputValueOf (agentName st)) (textareaValueOf (instructions st))
       (negb (truthy (agentName st)) || negb (truthy (instructions st))))
    st.

(** [renderDeploy] up to [await fetch]: the loading overlay. *)
Definition renderDeploy_begin (st : State) : State := set_page PageDeploying st.

Definition getActivePromptParams (st : State) : list PromptParam :=
  match promptParams st with
  | [] => match deployedAgent st with
          | Some a => ag_prompt_params a
          | None => []
          end
  | ps => ps
  end.

(** The first loop of [renderChatParamForm]. *)
Definition prefillParamValues (params : list PromptParam)
    (values : gmap string string) : gmap string string :=
  foldl (λ vs p, match vs !! pp_key p with
                 | Some _ => vs
                 | None => <[pp_key p := or_else (pp_default p) ""]> vs
                 end) values params.

Definition renderChatParamForm (params : list PromptParam) (st : State) : State :=
  set_page PageChatParamForm
    (set_paramValues (prefillParamValues params (paramValues st)) st).

Definition renderChat (st : State) : State :=
  let params := getActivePromptParams st in
  match params with
  | _ :: _ =>
      if chatParamsConfirmed st then set_page PageChat st
      else renderChatParamForm params st
  | [] => set_page PageChat st
  end.

Definition renderStep (st : State) : State :=
  match step st with
  | 1 => renderToolCatalog st
  | 2 => renderToolParams st
  | 3 => renderAgentConfig st
  | 4 => renderDeploy_begin st
  | 5 => renderChat st
  | _ => st
  end.

(** *** Selection *)

Definition toggleTool (id : string) (st : State) : State :=
  renderStep
    (set_selected
       (match selected st !! id with
        | Some _ => delete id (selected st)
        | None => <[id := freshEntry]> (selected st)
        end) st).

(** [if (!state.selected[toolId]) state.selected[toolId] = {...}] *)
Definition entryOrFresh (toolId : string) (st : State) : SelEntry :=
  default freshEntry (selected st !! toolId).

(** [state.selected[toolId]] for a tool that has no entry but whose id is
    an inherited name: the read gives the inherited value, which is
    truthy and has no [deploy_params] or [runtime_params], so no entry is
    created and the access to [...[section][key]] raises a TypeError. *)
Definition raisesOnTool (toolId : string) (st : State) : bool :=
  bool_decide (selected st !! toolId = None) && inheritedName toolId.

Definition setParam (toolId : string) (sec : section) (key : string)
    (value : jsval) (st : State) : State :=
  if raisesOnTool toolId st then st
  else
    handleShowIf
      (set_selected
         (<[toolId := sel_store sec key value (entryOrFresh toolId st)]>
            (selected st)) st).

Definition toggleMultiParam (toolId : string) (sec : section) (key : string)
    (option : string) (st : State) : State :=
  if raisesOnTool toolId st then st
  else
    let e := entryOrFresh toolId st in
    let current := sel_section e sec !! key in
    let arr := arrayOrEmpty current in
    let arr' := if includes arr option then without option arr
                else arr ++ [option] in
    renderStep
      (set_selected (<[toolId := sel_store sec key (JArr arr') e]> (selected st)) st).

(** *** Step 3: the two inputs and their [input] listener [checkReady] *)

Definition checkReady (nameValue instrValue : string) (st : State) : State :=
  set_page
    (PageConfig nameValue instrValue
       (negb (truthy (trim nameValue)) || negb (truthy (trim instrValue))))
    (set_instructions instrValue (set_agentName nameValue st)).

(** Typing in [#agent-name]. *)
Definition inputAgentName (v : string) (st : State) : State :=
  match page st with
  | PageConfig _ instr _ => checkReady v instr st
  | _ => st
  end.

(** Typing in [#agent-instructions]. *)
Definition inputInstructions (v : string) (st : State) : State :=
  match page st with
  | PageConfig name _ _ => checkReady name v st
  | _ => st
  end.

Definition addPromptParam (st : State) : State :=
  renderStep
    (set_promptParams
       (promptParams st ++
          [{| pp_key := ""; pp_label := ""; pp_type := "string";
              pp_options := []; pp_default := ""; pp_required := false;
              pp_description := ""; pp_placeholder := "" |}]) st).

(** *** Navigation *)

(** [document.getElementById(id)?.value?.trim() || fallback] *)
Definition trimmedOr (input : option string) (fallback : string) : string :=
  match input with
  | Some v => or_else (trim v) fallback
  | None => fallback
  end.

Definition agentNameInput (p : Page) : option string :=
  match p with
  | PageConfig n _ _ => Some n
  | _ => None
  end.

Definition agentInstructionsInput (p : Page) : option string :=
  match p with
  | PageConfig _ i _ => Some i
  | _ => None
  end.

Definition goToStep (n : nat) (st : State) : State :=
  if decide (n = 4) then
    let st1 :=
      set_agentName (trimmedOr (agentNameInput (page st)) (agentName st)) st in
    let st2 :=
      set_instructions
        (trimmedOr (agentInstructionsInput (page st)) (instructions st1)) st1 in
    if negb (truthy (agentName st2)) || negb (truthy (instructions st2))
    then st2
    else renderStep (set_step n st2)
  else renderStep (set_step n st).

(** The "Deploy Agent" button of step 3; a disabled button does not fire. *)
Definition clickDeploy (st : State) : State :=
  match page st with
  | PageConfig _ _ false => goToStep 4 st
  | _ => st
  end.

(** *** Step 4: deploy *)

(** The two [for] loops of [renderDeploy]: a catalog default is copied
    for a key that has no stored value and whose field has a default. *)
Definition fillDefaults (filled : gmap string jsval)
    (fields : gmap string ParamField) : gmap string jsval :=
  map_fold (λ k v acc,
              match acc !! k, pf_default v with
              | None, Some d => <[k := d]> acc
              | _, _ => acc
              end) filled fields.

Definition toolPayload (st : State) (entry : string * SelEntry) : ToolPayload :=
  let '(tool_id, params) := entry in
  match toolDetails st !! tool_id with
  | Some detail =>
      {| tp_tool_id := tool_id;
         tp_deploy_params :=
           fillDefaults (sel_deploy_params params) (td_deploy_params detail);
         tp_runtime_params :=
           fillDefaults (sel_runtime_params params) (td_runtime_params detail) |}
  | None =>
      {| tp_tool_id := tool_id;
         tp_deploy_params := sel_deploy_params params;
         tp_runtime_params := sel_runtime_params params |}
  end.

Definition deployPayload (st : State) : Payload :=
  {| p_name := trim (agentName st);
     p_model := agentModel st;
     p_instructions := trim (instructions st);
     p_tools := toolPayload st <$> map_to_list (selected st);
     p_prompt_params :=
       filter (λ p, truthy (trim (pp_key p)) = true) (promptParams st) |}.

(** [renderDeploy] after [await fetch]. *)
Definition renderDeploy_settle (res : DeployResult) (st : State) : State :=
  match res with
  | DeployOk agent =>
      renderStep
        (set_step 5
           (set_previousResponseId None
              (set_chatHistory [] (set_deployedAgent (Some agent) st))))
  | DeployErr message => set_page (PageDeployFailed message) st
  end.

Definition renderDeploy (res : DeployResult) (st : State) : State :=
  renderDeploy_settle res (renderDeploy_begin st).

(** *** Step 5: chat *)

(** [!state.paramValues[p.key]?.trim()] *)
Definition blankValue (v : option string) : bool :=
  match v with
  | Some s => negb (truthy (trim s))
  | None => true
  end.

(** [state.paramValues[p.key] || p.default || ''] *)
Definition shownValue (p : PromptParam) (st : State) : string :=
  or_else (or_else (default "" (paramValues st !! pp_key p)) (pp_default p)) "".

Definition contextLine (st : State) (p : PromptParam) : option string :=
  let val := shownValue p st in
  if truthy val
  then Some ("**" +:+ or_else (pp_label p) (pp_key p) +:+ ":** " +:+ val)
  else None.

Definition contextMessage (lines : list string) : Message :=
  {| role := context;
     content := "Agent parameters set:" +:+ newline +:+ join newline lines;
     toolCalls := None |}.

Definition confirmChatParams (st : State) : State :=
  let params := getActivePromptParams st in
  if existsb (λ p, pp_required p && blankValue (paramValues st !! pp_key p)) params
  then st
  else
    let st1 := set_chatParamsConfirmed true st in
    let lines := omap (contextLine st1) params in
    renderStep
      (match lines with
       | [] => st1
       | _ => set_chatHistory (chatHistory st1 ++ [contextMessage lines]) st1
       end).

(** [onchange] of a control of the parameter form:
    [state.paramValues[key] = this.value]. *)
Definition inputChatParam (key value : string) (st : State) : State :=
  set_paramValues (<[key := value]> (paramValues st)) st.

Definition editChatParams (st : State) : State :=
  renderStep (set_chatParamsConfirmed false st).

(** [sendChat] up to [await fetch].  It reads [#chat-input], which only
    the chat page has: anywhere else the read raises and nothing happens.
    On the chat page nothing happens for a blank input; otherwise the user
    message is pushed and the request leaves. *)
Definition sendChat_begin (input : string) (st : State)
    : option (State * ChatRequest) :=
  match page st with
  | PageChat =>
      let message := trim input in
      if truthy message then
        Some (set_chatHistory
                (chatHistory st ++
                   [{| role := user; content := message; toolCalls := None |}]) st,
              {| cq_agent_name :=
                   match deployedAgent st with
                   | Some a => or_else (ag_name a) (agentName st)
                   | None => agentName st
                   end;
                 cq_message := message;
                 cq_previous_response_id := previousResponseId st;
                 cq_param_values := paramValues st |})
      else None
  | _ => None
  end.

(** [sendChat] after [await fetch]. *)
Definition sendChat_settle (res : ChatResult) (st : State) : State :=
  match res with
  | ChatOk data =>
      set_chatHistory
        (chatHistory st ++
           [{| role := assistant; content := cd_text data;
               toolCalls := Some (cd_tool_calls data) |}])
        (set_previousResponseId (Some (cd_response_id data)) st)
  | ChatErr message =>
      set_chatHistory
        (chatHistory st ++
           [{| role := assistant; content := "Error: " +:+ message;
               toolCalls := Some [] |}]) st
  end.

(** A sequence of chat turns, each one settled before the next input is
    submitted; the result lists the requests that left with the outcome
    each one met. *)
Fixpoint chatRun (turns : list (string * ChatResult)) (st : State)
    : list (ChatRequest * ChatResult) * State :=
  match turns with
  | [] => ([], st)
  | (input, res) :: rest =>
      match sendChat_begin input st with
      | None => chatRun rest st
      | Some (st1, req) =>
          let '(trace, st') := chatRun rest (sendChat_settle res st1) in
          ((req, res) :: trace, st')
      end
  end.

(** Chat as the page really runs it: [sendChat] is not serialised.  The
    Send button is disabled while a request is pending, but Enter in
    [#chat-input] calls [sendChat] all the same, so a message can leave
    while earlier ones are unanswered.  A run keeps the state, the number
    of requests in flight and the requests sent so far. *)
Record ChatSession := {
  cs_state : State;
  cs_pending : nat;
  cs_sent : list ChatRequest
}.

Inductive ChatEvent :=
| EvSend (input : string)          (* Enter or Send with this text typed *)
| EvSettle (res : ChatResult).     (* a pending request gets its answer *)

Definition chatEvent (run : ChatSession) (ev : ChatEvent) : ChatSession :=
  match ev with
  | EvSend input =>
      match sendChat_begin input (cs_state run) with
      | Some (st1, req) =>
          {| cs_state := st1; cs_pending := S (cs_pending run);
             cs_sent := cs_sent run ++ [req] |}
      | None => run
      end
  | EvSettle res =>
      match cs_pending run with
      | S n =>
          {| cs_state := sendChat_settle res (cs_state run); cs_pending := n;
             cs_sent := cs_sent run |}
      | 0 => run
      end
  end.

Definition chatEvents (events : list ChatEvent) (st : State) : ChatSession :=
  foldl chatEvent {| cs_state := st; cs_pending := 0; cs_sent := [] |} events.

Definition updateAgent (st : State) : State :=
  let st1 :=
    match deployedAgent st, promptParams st with
    | Some a, [] =>
        match ag_prompt_params a with
        | [] => st
        | ps => set_promptParams ps st
        end
    | _, _ => st
    end in
  renderStep
    (set_paramValues ∅
       (set_chatParamsConfirmed false
          (set_previousResponseId None
             (set_chatHistory []
                (set_deployedAgent None (set_step 1 st1)))))).

(** *** What the user can do on the parameter step *)

(** The controls of the parameter page carry their handler in an
    attribute: [onchange="setParam(tool, section, key, this.value)"] on an
    input or select, [onclick="toggleMultiParam(tool, section, key, o)"]
    on a chip.  An event names the form group by its place on the page;
    there is nothing to act on where the page has no such group. *)
Inductive ParamEvent :=
| EvInput (i : nat) (value : string)
| EvChip (i : nat) (option : string).

Definition paramEvent (st : State) (ev : ParamEvent) : State :=
  match ev with
  | EvInput i value =>
      match formGroups (page st) !! i with
      | Some g => setParam (fg_tool g) (fg_section g) (fg_key g) (JStr value) st
      | None => st
      end
  | EvChip i option =>
      match formGroups (page st) !! i with
      | Some g => toggleMultiParam (fg_tool g) (fg_section g) (fg_key g) option st
      | None => st
      end
  end.

End Wizard.

(* ================================================================== *)
(** ** A small catalog used by the examples *)
(* ================================================================== *)

Module Fixtures.

Definition field (label type : string) (dflt : option jsval) (required : bool)
    (options : list string) (show_if : option (string * string)) : ParamField :=
  {| pf_label := label; pf_type := type; pf_default := dflt;
     pf_required := required; pf_options := options;
     pf_placeholder := ""; pf_description := ""; pf_show_if := show_if |}.

(** An OpenAPI tool shaped like the ones [saveToolForm] builds, with the
    connection field declared required and one more required field that
    has no default. *)
Definition operations : ParamField :=
  field "Operations to include" "multi_select"
    (Some (JArr ["getWeather"; "getForecast"])) true
    ["getWeather"; "getForecast"] None.

Definition connection : ParamField :=
  field "Project Connection" "connection_picker" (Some (JStr "")) true []
    (Some ("auth_type", "project_connection")).

Definition weather : ToolDetail :=
  {| td_name := "Weather"; td_icon := "cloud";
     td_deploy_params :=
       <["spec_url" :=
           field "OpenAPI Spec URL" "string"
             (Some (JStr "https://api.example.com/openapi.json")) true [] None]>
       (<["operations" := operations]>
       (<["auth_type" :=
           field "Authentication" "select" (Some (JStr "anonymous")) true
             ["anonymous"; "project_connection"; "managed_identity"] None]>
       (<["project_connection_id" := connection]>
       (<["api_key" := field "API key" "password" None true [] None]> ∅))));
     td_runtime_params :=
       <["units" :=
           field "Units" "select" (Some (JStr "fahrenheit")) false
             ["fahrenheit"; "celsius"] None]> ∅ |}.

Definition noTool : ToolDetail :=
  {| td_name := ""; td_icon := "";
     td_deploy_params := ∅; td_runtime_params := ∅ |}.

(** The catalog server. *)
Definition catalog (id : string) : option ToolDetail :=
  if decide (id = "weather") then Some weather else Some noTool.

(** A catalog server that answers for the weather tool only. *)
Definition weatherOnly (id : string) : option ToolDetail :=
  if decide (id = "weather") then Some weather else None.

(** The wizard on step 2 with the weather tool just selected. *)
Definition weatherSelected : State :=
  goToStep catalog 2 (toggleTool catalog "weather" initialState).

Definition purpose : PromptParam :=
  {| pp_key := "purpose"; pp_label := "Purpose of email"; pp_type := "string";
     pp_options := []; pp_default := ""; pp_required := true;
     pp_description := ""; pp_placeholder := "" |}.

Definition tone : PromptParam :=
  {| pp_key := "tone"; pp_label := "Tone"; pp_type := "select";
     pp_options := ["professional"; "warm"]; pp_default := "";
     pp_required := false; pp_description := ""; pp_placeholder := "" |}.

Definition bot (ps : list PromptParam) : Agent :=
  {| ag_name := "bot-1"; ag_id := "asst_1"; ag_version := 1;
     ag_prompt_params := ps |}.

(** Step 3 with both inputs filled in. *)
Definition readyDraft : State :=
  inputInstructions "You are helpful"
    (inputAgentName "bot-1" (goToStep catalog 3 weatherSelected)).

(** Step 3 reached with nothing typed but the instructions (Scenario B). *)
Definition namelessDraft : State :=
  inputInstructions "You are helpful" (goToStep catalog 3 initialState).

(** Three spaces typed as the name, then Back and Next: step 3 is
    rendered again from [state]. *)
Definition blankNameDraft : State :=
  goToStep catalog 3
    (goToStep catalog 2
       (inputInstructions "You are helpful"
          (inputAgentName "   " (goToStep catalog 3 initialState)))).

(** The chat step right after a successful deploy of an agent with the
    given prompt parameters. *)
Definition chatWith (ps : list PromptParam) : State :=
  renderDeploy catalog (DeployOk (bot ps)) (clickDeploy catalog readyDraft).

Definition reply (text id : string) : ChatResult :=
  ChatOk {| cd_text := text; cd_response_id := id; cd_tool_calls := [] |}.

End Fixtures.

(* ================================================================== *)
(** ** The vocabulary of the specification *)
(* ================================================================== *)

(** These definitions follow the wording of the specification, not the
    code; the theorems below compare the handlers with them. *)
Module Spec.

(** "A tool absent from Selection is not chosen." *)
Definition active (id : string) (st : State) : Prop :=
  is_Some (selected st !! id).

(** "the key be declared on the tool's schema for that section" *)
Definition declared (id : string) (sec : section) (key : string)
    (st : State) : Prop :=
  is_Some (toolDetails st !! id ≫= (λ d, td_section d sec !! key)).

(** "Empty: the empty string for scalar, the empty list for list". *)
Definition emptyOf (f : ParamField) : jsval :=
  if decide (pf_type f = "multi_select") then JArr [] else JStr "".

(** "Precedence, strictly: (1) explicit override; (2) ParamField.default;
    (3) Empty". *)
Definition resolve (e : SelEntry) (sec : section) (key : string)
    (f : ParamField) : jsval :=
  match sel_section e sec !! key with
  | Some v => v
  | None => default (emptyOf f) (pf_default f)
  end.

(** "non-empty (Scalar non-blank or List non-empty)" *)
Definition isEmpty (v : jsval) : bool :=
  match v with
  | JStr s => negb (truthy (trim s))
  | JArr l => bool_decide (l = [])
  end.

(** "some required ParamField of some active tool resolves to an empty
    value" *)
Definition requiredFieldEmpty (st : State) : Prop :=
  ∃ id e d sec key f,
    selected st !! id = Some e ∧ toolDetails st !! id = Some d ∧
    td_section d sec !! key = Some f ∧ pf_required f = true ∧
    isEmpty (resolve e sec key f) = true.

(** "exactly the key set of its declared schema for each section" *)
Definition payloadKeysExact (st : State) : Prop :=
  ∀ id e d t sec,
    selected st !! id = Some e → toolDetails st !! id = Some d →
    t ∈ p_tools (deployPayload st) → tp_tool_id t = id →
    dom (tp_section t sec) = dom (td_section d sec).

(** "the live resolved value of k (explicit override if present, else
    k's default, else empty string)" *)
Definition liveValue (id : string) (sec : section) (k : string)
    (st : State) : jsval :=
  let fromCatalog :=
    match toolDetails st !! id with
    | Some d =>
        match td_section d sec !! k with
        | Some f => default (JStr "") (pf_default f)
        | None => JStr ""
        end
    | None => JStr ""
    end in
  match selected st !! id with
  | Some e => default fromCatalog (sel_section e sec !! k)
  | None => fromCatalog
  end.

(** "the whole draft — agent name, model, instructions, prompt-parameter
    definitions, and the Selection with all its overrides" *)
Definition draft (st : State)
    : string * string * string * list PromptParam * gmap string SelEntry :=
  (agentName st, agentModel st, instructions st, promptParams st, selected st).

(** "any required PromptParam resolves to a blank value" *)
Definition requiredParamBlank (st : State) : Prop :=
  ∃ p, p ∈ getActivePromptParams st ∧ pp_required p = true ∧
       blankValue (paramValues st !! pp_key p) = true.

End Spec.

(* ================================================================== *)
(** ** The invariant of the parameter page *)
(* ================================================================== *)

(** What [style.display] of a form group has to be in state [st]: a group
    without a condition is shown, a group with one is shown exactly when
    [handleShowIf], run now, would show it. *)
Definition shown (st : State) (g : FormGroup) : Prop :=
  match fg_showif g with
  | None => fg_display g = true
  | Some (k, v) =>
      fg_display g = true ↔ currentVal (fg_tool g) (fg_section g) k st = JStr v
  end.

(** No form group of the page displays the visibility of an earlier state. *)
Definition pageFresh (st : State) : Prop :=
  ∀ g, g ∈ formGroups (page st) → shown st g.

(** Every field declared by the cached schema of an active tool has its
    form group on the page. *)
Definition pageCovers (st : State) : Prop :=
  ∀ id d sec key f,
    is_Some (selected st !! id) → toolDetails st !! id = Some d →
    td_section d sec !! key = Some f →
    ∃ g, g ∈ formGroups (page st) ∧ fg_tool g = id ∧ fg_section g = sec ∧
         fg_key g = key ∧ fg_showif g = pf_show_if f.

(** The parameter page as [renderToolParams] leaves it and the handlers of
    its controls keep it: the wizard is on step 2, the details of every
    active tool are cached, the form groups are those of active tools and
    cover their schemas, and every group displays the visibility of now. *)
Definition paramsPage (st : State) : Prop :=
  step st = 2 ∧
  (∀ id, is_Some (selected st !! id) → is_Some (toolDetails st !! id)) ∧
  (∀ g, g ∈ formGroups (page st) → is_Some (selected st !! fg_tool g)) ∧
  pageCovers st ∧ pageFresh st.

(* ================================================================== *)
(** ** Comma-separated lists *)
(* ================================================================== *)

(** Multi-select prompt parameters and the options of the parameter
    builder are kept as one string;
    [val.split(',').map(s => s.trim()).filter(Boolean)] reads it back. *)

Definition isComma (c : ascii) : bool := (nat_of_ascii c =? 44).

(** [s.split(',')]: never empty, the empty string gives one empty piece. *)
Fixpoint splitComma (s : string) : list string :=
  match s with
  | EmptyString => [EmptyString]
  | String c r =>
      if isComma c then EmptyString :: splitComma r
      else match splitComma r with
           | x :: xs => String c x :: xs
           | [] => [String c EmptyString]
           end
  end.

Definition parseList (val : string) : list string :=
  filter (λ x, truthy x = true) (trim <$> splitComma val).

Fixpoint noComma (s : string) : bool :=
  match s with
  | EmptyString => true
  | String c r => negb (isComma c) && noComma r
  end.

(** First character is not white space (or there is none). *)
Definition startsClean (s : string) : Prop :=
  match s with
  | EmptyString => True
  | String c _ => is_ws c = false
  end.

(** An item that survives being joined and parsed again: trimmed, not
    empty, without a comma. *)
Definition goodItem (x : string) : Prop :=
  trim x = x ∧ truthy x = true ∧ noComma x = true.

(* ================================================================== *)
(** ** More handlers *)
(* ================================================================== *)

Section MoreHandlers.

Variable fetchTool : string → option ToolDetail.

(** *** Chat parameter form: chips of a multi-select *)

(** The list [renderChatParamForm] marks selected and [toggleChatParam]
    starts from: [val ? val.split(',').map(s => s.trim()).filter(Boolean) : []]
    with [val = state.paramValues[key] || '']. *)
Definition chatSelection (key : string) (st : State) : list string :=
  let val := or_else (default "" (paramValues st !! key)) "" in
  if truthy val then parseList val else [].

Definition toggleChatParam (key option : string) (st : State) : State :=
  let arr := chatSelection key st in
  let arr' := if includes arr option then without option arr
              else arr ++ [option] in
  renderStep fetchTool
    (set_paramValues (<[key := join ", " arr']> (paramValues st)) st).

(** [renderParamSummaryBar]: the chips (label and value) of the bar above
    the conversation, [None] when the bar, and with it the Edit button, is
    not rendered. *)
Definition renderParamSummaryBar (st : State) : option (list (string * string)) :=
  let activeValues :=
    omap (λ p, let val := shownValue p st in
               if truthy val then Some (or_else (pp_label p) (pp_key p), val)
               else None)
         (getActivePromptParams st) in
  match activeValues with
  | [] => None
  | _ => Some activeValues
  end.

(** *** Prompt parameter builder *)

(** The [field] and [value] arguments of [setPromptParam], as the controls
    of the builder pass them. *)
Inductive PromptFieldUpdate :=
| SetKey (v : string)
| SetLabel (v : string)
| SetType (v : string)
| SetDefault (v : string)
| SetDescription (v : string)
| SetPlaceholder (v : string)
| SetRequired (v : bool).

(** [p[field] = value] *)
Definition updatePromptField (u : PromptFieldUpdate) (p : PromptParam) : PromptParam :=
  {| pp_key := match u with SetKey v => v | _ => pp_key p end;
     pp_label := match u with SetLabel v => v | _ => pp_label p end;
     pp_type := match u with SetType v => v | _ => pp_type p end;
     pp_options := pp_options p;
     pp_default := match u with SetDefault v => v | _ => pp_default p end;
     pp_required := match u with SetRequired v => v | _ => pp_required p end;
     pp_description := match u with SetDescription v => v | _ => pp_description p end;
     pp_placeholder := match u with SetPlaceholder v => v | _ => pp_placeholder p end |}.

Definition setPromptParam (index : nat) (u : PromptFieldUpdate) (st : State) : State :=
  match promptParams st !! index with
  | Some p =>
      let st1 :=
        set_promptParams (<[index := updatePromptField u p]> (promptParams st)) st in
      match u with
      | SetType _ => renderStep fetchTool st1
      | _ => st1
      end
  | None => st
  end.

Definition setPromptParamOptions (index : nat) (value : string) (st : State) : State :=
  match promptParams st !! index with
  | Some p =>
      set_promptParams
        (<[index :=
             {| pp_key := pp_key p; pp_label := pp_label p; pp_type := pp_type p;
                pp_options := parseList value;
                pp_default := pp_default p; pp_required := pp_required p;
                pp_description := pp_description p;
                pp_placeholder := pp_placeholder p |}]> (promptParams st)) st
  | None => st
  end.

(** [state.promptParams.splice(index, 1)] *)
Definition removePromptParam (index : nat) (st : State) : State :=
  renderStep fetchTool (set_promptParams (delete index (promptParams st)) st).

(** *** Page load *)


End MoreHandlers.

(** *** The schemas [saveToolForm] builds for a custom tool *)

Definition plainField (label type : string) (dflt : jsval) (required : bool)
    (options : list string) (show_if : option (string * string)) : ParamField :=
  {| pf_label := label; pf_type := type; pf_default := Some dflt;
     pf_required := required; pf_options := options;
     pf_placeholder := ""; pf_description := ""; pf_show_if := show_if |}.

(** [d.deploy_params] for [d.type === 'openapi']. *)
Definition openApiDeployParams (specUrl authType : string) (ops : list string)
    : gmap string ParamField :=
  <["spec_url" := plainField "OpenAPI Spec URL" "string" (JStr specUrl) true [] None]>
  (<["operations" :=
       plainField "Operations to include" "multi_select" (JArr ops) true ops None]>
  (<["auth_type" :=
       plainField "Authentication" "select" (JStr authType) true
         ["anonymous"; "project_connection"; "managed_identity"] None]>
  (<["project_connection_id" :=
       plainField "Project Connection" "connection_picker" (JStr "") false []
         (Some ("auth_type", "project_connection"))]> ∅))).

(** [d.deploy_params] for [d.type === 'mcp']. *)
Definition mcpDeployParams (serverUrl approval : string) : gmap string ParamField :=
  <["server_url" := plainField "MCP Server URL" "string" (JStr serverUrl) true [] None]>
  (<["require_approval" :=
       plainField "Require approval for tool calls" "select" (JStr approval) true
         ["never"; "always"] None]>
  (<["allowed_tools" :=
       plainField "Restrict to specific tools (comma-separated, blank = all)"
         "string" (JStr "") false [] None]> ∅)).

(** A custom tool as the catalog answers it after [saveToolForm]:
    [d.runtime_params = {}]. *)
Definition customTool (name icon : string) (deploy : gmap string ParamField)
    : ToolDetail :=
  {| td_name := name; td_icon := icon;
     td_deploy_params := deploy; td_runtime_params := ∅ |}.

(* ================================================================== *)
(** ** The earlier frontend script *)
(* ================================================================== *)

(** The handlers of the platform frontend script that differ from the
    builder script above.  Its [state] has no prompt parameters; the
    handlers below leave those fields of [State] alone. *)
Module Legacy.
Section Handlers.

Variable fetchTool : string → option ToolDetail.

Definition renderToolParams (st : State) : State :=
  let toolIds := (map_to_list (selected st)).*1 in
  let st1 := set_toolDetails (fetchMissing fetchTool toolIds (toolDetails st)) st in
  if forallb (λ id, bool_decide (is_Some (toolDetails st1 !! id))) toolIds
  then handleShowIf
         (set_page (PageParams (mbind (renderTool (toolDetails st1)) toolIds)) st1)
  else set_page PageLoading st1.

Definition renderChat (st : State) : State := set_page PageChat st.

Definition renderStep (st : State) : State :=
  match step st with
  | 1 => renderToolCatalog st
  | 2 => renderToolParams st
  | 3 => renderAgentConfig st
  | 4 => renderDeploy_begin st
  | 5 => renderChat st
  | _ => st
  end.

Definition goToStep (n : nat) (st : State) : State :=
  if decide (n = 2 ∧ selected st = ∅) then st
  else if decide (n = 4) then
    let st1 :=
      set_agentName (trimmedOr (agentNameInput (page st)) (agentName st)) st in
    let st2 :=
      set_instructions
        (trimmedOr (agentInstructionsInput (page st)) (instructions st1)) st1 in
    if negb (truthy (agentName st2)) || negb (truthy (instructions st2))
    then st2
    else renderStep (set_step n st2)
  else renderStep (set_step n st).

Definition updateAgent (st : State) : State :=
  renderStep
    (set_previousResponseId None
       (set_chatHistory [] (set_deployedAgent None (set_step 1 st)))).

End Handlers.
End Legacy.

(* ================================================================== *)
(** ** Vocabulary of the additional properties *)
(* ================================================================== *)

(** [arr.includes(o) ? arr.filter(x => x !== o) : [...arr, o]], the list
    operation shared by [toggleMultiParam] and [toggleChatParam]. *)
Definition toggled (option : string) (arr : list string) : list string :=
  if includes arr option then without option arr else arr ++ [option].


(** The line of the context message for a chip of the summary bar. *)
Definition chipLine (chip : string * string) : string :=
  "**" +:+ chip.1 +:+ ":** " +:+ chip.2.

(* ================================================================== *)
(** ** The string primitives on examples *)
(* ================================================================== *)

Example trim_both_ends : trim "  my bot  " = "my bot".
Proof. reflexivity. Qed.

Example trim_blank : trim ("   " +:+ newline) = "".
Proof. reflexivity. Qed.

Example or_else_falls_back : or_else (trim "   ") "   " = "   ".
Proof. reflexivity. Qed.

(* ================================================================== *)
(** ** Frame lemmas: what rendering leaves alone *)
(* ================================================================== *)

Section Frames.

Variable fetchTool : string → option ToolDetail.

Lemma handleShowIf_frame st :
  step (handleShowIf st) = step st ∧
  selected (handleShowIf st) = selected st ∧
  toolDetails (handleShowIf st) = toolDetails st ∧
  Spec.draft (handleShowIf st) = Spec.draft st.
Proof. unfold handleShowIf. by destruct (page st). Qed.

Lemma renderToolParams_frame st :
  step (renderToolParams fetchTool st) = step st ∧
  Spec.draft (renderToolParams fetchTool st) = Spec.draft st ∧
  deployedAgent (renderToolParams fetchTool st) = deployedAgent st ∧
  chatHistory (renderToolParams fetchTool st) = chatHistory st ∧
  previousResponseId (renderToolParams fetchTool st) = previousResponseId st ∧
  chatParamsConfirmed (renderToolParams fetchTool st) = chatParamsConfirmed st.
Proof.
  unfold renderToolParams.
  destruct ((map_to_list (selected st)).*1); [done|].
  destruct (forallb _ _); [|done].
  unfold handleShowIf; by simpl.
Qed.

Lemma renderChat_frame st :
  step (renderChat st) = step st ∧
  Spec.draft (renderChat st) = Spec.draft st ∧
  deployedAgent (renderChat st) = deployedAgent st ∧
  chatHistory (renderChat st) = chatHistory st ∧
  previousResponseId (renderChat st) = previousResponseId st ∧
  chatParamsConfirmed (renderChat st) = chatParamsConfirmed st.
Proof.
  unfold renderChat.
  destruct (getActivePromptParams st); [done|].
  by destruct (chatParamsConfirmed st) eqn:Hc.
Qed.

(** [renderStep] writes the page, the details cache and the pre-filled
    chat values, and nothing else. *)
Lemma renderStep_frame st :
  step (renderStep fetchTool st) = step st ∧
  Spec.draft (renderStep fetchTool st) = Spec.draft st ∧
  deployedAgent (renderStep fetchTool st) = deployedAgent st ∧
  chatHistory (renderStep fetchTool st) = chatHistory st ∧
  previousResponseId (renderStep fetchTool st) = previousResponseId st ∧
  chatParamsConfirmed (renderStep fetchTool st) = chatParamsConfirmed st.
Proof.
  unfold renderStep.
  destruct (step st) as [|[|[|[|[|[|n]]]]]] eqn:Hs; try done.
  - rewrite <- Hs. apply renderToolParams_frame.
  - rewrite <- Hs. apply renderChat_frame.
Qed.

Lemma renderStep_selected st :
  selected (renderStep fetchTool st) = selected st.
Proof.
  destruct (renderStep_frame st) as (_ & Hd & _).
  unfold Spec.draft in Hd. congruence.
Qed.

Lemma renderStep_step st : step (renderStep fetchTool st) = step st.
Proof. apply renderStep_frame. Qed.

End Frames.

(* ================================================================== *)
(** ** Selection: activating tools, storing overrides *)
(* ================================================================== *)

Section SelectionProperties.

Variable fetchTool : string → option ToolDetail.

Lemma toggleTool_selected id st :
  selected (toggleTool fetchTool id st) =
    match selected st !! id with
    | Some _ => delete id (selected st)
    | None => <[id := freshEntry]> (selected st)
    end.
Proof. unfold toggleTool. by rewrite renderStep_selected. Qed.

(** C10.  Toggling an active tool off deletes its entry of the selection,
    stored overrides included; toggling it on again creates the entry
    anew with both override maps empty, so the overrides are not
    restored. *)
Theorem toggleTool_off_on_forgets_overrides id e st :
  selected st !! id = Some e →
  selected (toggleTool fetchTool id st) !! id = None ∧
  selected (toggleTool fetchTool id (toggleTool fetchTool id st)) !! id
    = Some {| sel_deploy_params := ∅; sel_runtime_params := ∅ |}.
Proof.
  intros He.
  assert (Hoff : selected (toggleTool fetchTool id st) !! id = None).
  { rewrite toggleTool_selected, He. apply lookup_delete_eq. }
  split; [exact Hoff|].
  rewrite toggleTool_selected, Hoff. apply lookup_insert_eq.
Qed.

Lemma setParam_selected toolId sec key value st :
  raisesOnTool toolId st = false →
  selected (setParam toolId sec key value st) =
    <[toolId := sel_store sec key value (entryOrFresh toolId st)]> (selected st).
Proof.
  intros Hr. unfold setParam. rewrite Hr.
  by rewrite (proj1 (proj2 (handleShowIf_frame _))).
Qed.

Lemma setParam_raises toolId sec key value st :
  raisesOnTool toolId st = true → setParam toolId sec key value st = st.
Proof. intros Hr. unfold setParam. by rewrite Hr. Qed.

Lemma raisesOnTool_plain toolId st :
  plainName toolId → raisesOnTool toolId st = false.
Proof. unfold raisesOnTool, plainName. intros ->. apply andb_false_r. Qed.

Lemma raisesOnTool_active toolId st :
  is_Some (selected st !! toolId) → raisesOnTool toolId st = false.
Proof.
  intros [e He]. unfold raisesOnTool.
  rewrite bool_decide_eq_false_2; [done|]. by rewrite He.
Qed.

Lemma sel_store_same sec key value e :
  sel_section (sel_store sec key value e) sec = <[key := value]> (sel_section e sec).
Proof. by destruct sec. Qed.

Lemma sel_store_other sec sec' key value e :
  sec' ≠ sec → sel_section (sel_store sec key value e) sec' = sel_section e sec'.
Proof. by destruct sec, sec'. Qed.

(** C4, as the code has it.  [setParam] never looks at the schema and
    there is no SchemaError.  For a tool id and a key that are plain names
    (not names every object inherits), whatever the section and value: the
    tool has an entry afterwards (a fresh one is created when it was not
    active), the value is stored under the key in the named section of
    that entry, and the other section of the entry is what it was.  For a
    tool id that is an inherited name and has no entry, the handler
    raises a TypeError before it stores anything: the state is as it
    was. *)
Theorem setParam_always_stores toolId sec key value st :
  (plainName toolId → plainName key →
   ∃ e',
     selected (setParam toolId sec key value st) !! toolId = Some e' ∧
     sel_section e' sec !! key = Some value ∧
     sel_section e' sec =
       <[key := value]> (sel_section (default freshEntry (selected st !! toolId)) sec) ∧
     sel_section e' (match sec with
                     | deploy_params => runtime_params
                     | runtime_params => deploy_params
                     end) =
       sel_section (default freshEntry (selected st !! toolId))
         (match sec with
          | deploy_params => runtime_params
          | runtime_params => deploy_params
          end)) ∧
  (inheritedName toolId = true → selected st !! toolId = None →
   setParam toolId sec key value st = st).
Proof.
  split.
  - intros Htool _.
    exists (sel_store sec key value (entryOrFresh toolId st)).
    rewrite setParam_selected by (by apply raisesOnTool_plain).
    rewrite lookup_insert_eq, sel_store_same, lookup_insert_eq.
    repeat split. by destruct sec.
  - intros Hinh Hnone. apply setParam_raises. unfold raisesOnTool.
    by rewrite Hinh, bool_decide_eq_true_2.
Qed.

(** C3, as the code has it.  [goToStep(3)] validates nothing: from any
    state, whatever the required fields of the active tools resolve to,
    the wizard is on step 3 afterwards, with the selection untouched. *)
Theorem goToStep_3_always_permitted st :
  step (goToStep fetchTool 3 st) = 3 ∧
  selected (goToStep fetchTool 3 st) = selected st.
Proof. done. Qed.

End SelectionProperties.

(** C4, the claim as stated fails: no tool is active in the initial state
    and nothing declares the key, yet [setParam] changes the selection. *)
Lemma setParam_inactive_undeclared_changes_selection :
  ¬ Spec.active "weather" initialState ∧
  ¬ Spec.declared "weather" deploy_params "no_such_key" initialState ∧
  selected (setParam "weather" deploy_params "no_such_key" (JStr "v") initialState)
    ≠ selected initialState.
Proof.
  split; [|split].
  - intros [e He]. by vm_compute in He.
  - intros [f Hf]. by vm_compute in Hf.
  - intros Heq.
    assert (H : selected (setParam "weather" deploy_params "no_such_key" (JStr "v")
                            initialState) !! "weather" = None)
      by (by rewrite Heq).
    by vm_compute in H.
Qed.

Lemma setParam_always_stores_witness :
  (∃ e', selected (setParam "weather" deploy_params "no_such_key" (JStr "v")
                     initialState) !! "weather" = Some e' ∧
         sel_section e' deploy_params !! "no_such_key" = Some (JStr "v")) ∧
  setParam "constructor" deploy_params "no_such_key" (JStr "v") initialState
    = initialState.
Proof.
  destruct (setParam_always_stores "weather" deploy_params "no_such_key" (JStr "v")
              initialState) as [Hstore _].
  destruct (setParam_always_stores "constructor" deploy_params "no_such_key" (JStr "v")
              initialState) as [_ Hraise].
  split.
  - destruct (Hstore eq_refl eq_refl) as (e' & He' & Hk & _).
    exists e'. by split.
  - by apply Hraise.
Defined.

(** C3, the claim as stated fails: with the weather tool selected and
    nothing typed in, the required connection field (hidden, default
    empty) resolves to the empty string, and the wizard still moves from
    step 2 to step 3. *)
Lemma goToStep_3_with_required_field_empty :
  Spec.requiredFieldEmpty Fixtures.weatherSelected ∧
  step Fixtures.weatherSelected = 2 ∧
  step (goToStep Fixtures.catalog 3 Fixtures.weatherSelected) = 3.
Proof.
  split; [|by vm_compute].
  exists "weather", freshEntry, Fixtures.weather, deploy_params,
    "project_connection_id",
    (Fixtures.field "Project Connection" "connection_picker" (Some (JStr "")) true []
       (Some ("auth_type", "project_connection"))).
  repeat split; by vm_compute.
Qed.

Lemma toggleTool_off_on_forgets_overrides_witness :
  let st := setParam "weather" deploy_params "auth_type" (JStr "managed_identity")
              Fixtures.weatherSelected in
  (∃ e, selected st !! "weather" = Some e ∧
        sel_deploy_params e !! "auth_type" = Some (JStr "managed_identity")) ∧
  selected (toggleTool Fixtures.catalog "weather" st) !! "weather" = None ∧
  selected (toggleTool Fixtures.catalog "weather"
              (toggleTool Fixtures.catalog "weather" st)) !! "weather"
    = Some freshEntry.
Proof.
  intros st.
  split.
  - eexists. split; by vm_compute.
  - apply (toggleTool_off_on_forgets_overrides Fixtures.catalog "weather"
             (sel_store deploy_params "auth_type" (JStr "managed_identity") freshEntry)).
    by vm_compute.
Defined.

(* ================================================================== *)
(** ** The deploy payload *)
(* ================================================================== *)

Section PayloadProperties.

(** The loop of [renderDeploy] computes, key by key, the stored value if
    there is one and else the default of the declared field if it has
    one. *)
Lemma fillDefaults_lookup filled fields k :
  fillDefaults filled fields !! k =
    match filled !! k with
    | Some v => Some v
    | None => fields !! k ≫= pf_default
    end.
Proof.
  unfold fillDefaults.
  apply (map_fold_weak_ind
           (λ (r : gmap string jsval) (m : gmap string ParamField),
              r !! k = match filled !! k with
                       | Some v => Some v
                       | None => m !! k ≫= pf_default
                       end)).
  - rewrite lookup_empty. by destruct (filled !! k).
  - intros i x m r Hi IH.
    destruct (decide (i = k)) as [->|Hne].
    + rewrite lookup_insert_eq. rewrite Hi in IH. simpl in *.
      destruct (r !! k) as [v|] eqn:Hr.
      * rewrite Hr. destruct (filled !! k); [done|discriminate].
      * destruct (filled !! k); [discriminate|].
        destruct (pf_default x) as [d|] eqn:Hd; simpl.
        -- by rewrite lookup_insert_eq.
        -- done.
    + rewrite (lookup_insert_ne m i k x Hne).
      destruct (r !! i), (pf_default x); try done.
      by rewrite lookup_insert_ne.
Qed.

Lemma toolPayload_lookup st id e sec k :
  tp_section (toolPayload st (id, e)) sec !! k =
    match sel_section e sec !! k with
    | Some v => Some v
    | None => (toolDetails st !! id ≫= (λ d, td_section d sec !! k)) ≫= pf_default
    end.
Proof.
  unfold toolPayload.
  destruct (toolDetails st !! id) as [d|]; simpl.
  - destruct sec; simpl; apply fillDefaults_lookup.
  - destruct sec; simpl; by destruct (_ !! k).
Qed.

(** C1, as the code has it.  The payload has exactly one element for
    every active tool, and in it each value map holds, key by key: the
    stored override when there is one (whether or not the schema declares
    the key), else the default of the field the cached schema declares
    under that key when that field has a default, else nothing.  Whether
    a field is shown or hidden plays no part. *)
Theorem deployPayload_tool_params id e st :
  selected st !! id = Some e →
  ∃ t,
    t ∈ p_tools (deployPayload st) ∧ tp_tool_id t = id ∧
    (∀ t', t' ∈ p_tools (deployPayload st) → tp_tool_id t' = id → t' = t) ∧
    ∀ sec k,
      tp_section t sec !! k =
        match sel_section e sec !! k with
        | Some v => Some v
        | None =>
            match toolDetails st !! id with
            | Some d =>
                match td_section d sec !! k with
                | Some f => pf_default f
                | None => None
                end
            | None => None
            end
        end.
Proof.
  intros He.
  exists (toolPayload st (id, e)).
  assert (Hid : ∀ kv, tp_tool_id (toolPayload st kv) = kv.1).
  { intros [i x]. unfold toolPayload. by destruct (toolDetails st !! i). }
  split; [|split; [|split]].
  - unfold deployPayload; simpl.
    apply list_elem_of_fmap. exists (id, e). split; [done|].
    by apply elem_of_map_to_list.
  - apply (Hid (id, e)).
  - unfold deployPayload; simpl. intros t' Hin Ht'.
    apply list_elem_of_fmap in Hin as ([i x] & -> & Hin).
    apply elem_of_map_to_list in Hin.
    rewrite (Hid (i, x)) in Ht'. simpl in Ht'. subst i.
    rewrite He in Hin. by inversion Hin.
  - intros sec k. rewrite toolPayload_lookup.
    destruct (sel_section e sec !! k); [done|].
    destruct (toolDetails st !! id) as [d|]; simpl; [|done].
    by destruct (td_section d sec !! k).
Qed.

End PayloadProperties.

(** C1, the claim as stated fails: the weather schema declares [api_key]
    without a default; with nothing stored for it the payload has no such
    key, so the key set of the payload is not that of the schema. *)
Lemma deployPayload_omits_field_without_default :
  ¬ Spec.payloadKeysExact Fixtures.weatherSelected.
Proof.
  intros H.
  specialize (H "weather" freshEntry Fixtures.weather
                (toolPayload Fixtures.weatherSelected ("weather", freshEntry))
                deploy_params).
  assert (Hin : "api_key" ∈ dom (td_section Fixtures.weather deploy_params)).
  { apply elem_of_dom. eexists. by vm_compute. }
  rewrite <- H in Hin.
  - apply elem_of_dom in Hin as [v Hv]. by vm_compute in Hv.
  - by vm_compute.
  - by vm_compute.
  - vm_compute. apply list_elem_of_here.
  - by vm_compute.
Qed.

Lemma deployPayload_tool_params_witness :
  let st := setParam "weather" deploy_params "auth_type" (JStr "managed_identity")
              Fixtures.weatherSelected in
  ∃ t, t ∈ p_tools (deployPayload st) ∧
       tp_deploy_params t !! "auth_type" = Some (JStr "managed_identity") ∧
       tp_deploy_params t !! "project_connection_id" = Some (JStr "") ∧
       tp_deploy_params t !! "api_key" = None ∧
       tp_runtime_params t !! "units" = Some (JStr "fahrenheit").
Proof.
  intros st.
  destruct (deployPayload_tool_params "weather"
              (sel_store deploy_params "auth_type" (JStr "managed_identity") freshEntry)
              st) as (t & Hin & _ & _ & Hk).
  { by vm_compute. }
  exists t. split; [exact Hin|].
  pose proof (Hk deploy_params "auth_type") as H1.
  pose proof (Hk deploy_params "project_connection_id") as H2.
  pose proof (Hk deploy_params "api_key") as H3.
  pose proof (Hk runtime_params "units") as H4.
  repeat split; [exact H1 | exact H2 | exact H3 | exact H4].
Defined.

(* ================================================================== *)
(** ** Parameter step: conditional visibility and chips *)
(* ================================================================== *)

Section VisibilityProperties.

Variable fetchTool : string → option ToolDetail.

(** The [??] chain of [handleShowIf] is the live value of the
    specification. *)
Lemma currentVal_liveValue id sec k st :
  currentVal id sec k st = Spec.liveValue id sec k st.
Proof.
  unfold currentVal, Spec.liveValue.
  destruct (selected st !! id) as [e|]; simpl.
  - destruct (sel_section e sec !! k); simpl; [done|].
    destruct (toolDetails st !! id) as [d|]; simpl; [|done].
    destruct (td_section d sec !! k) as [f|]; simpl; [|done].
    by destruct (pf_default f).
  - destruct (toolDetails st !! id) as [d|]; simpl; [|done].
    destruct (td_section d sec !! k) as [f|]; simpl; [|done].
    by destruct (pf_default f).
Qed.

Lemma currentVal_ext id sec k st st' :
  selected st = selected st' → toolDetails st = toolDetails st' →
  currentVal id sec k st = currentVal id sec k st'.
Proof. unfold currentVal. by intros -> ->. Qed.

Lemma shown_ext st st' g :
  selected st = selected st' → toolDetails st = toolDetails st' →
  shown st g → shown st' g.
Proof.
  unfold shown. intros Hs Ht.
  destruct (fg_showif g) as [[k v]|]; [|done].
  by rewrite (currentVal_ext _ _ _ st st' Hs Ht).
Qed.

(** One pass of [handleShowIf] brings every group with a condition up to
    date and leaves the others as they were. *)
Lemma showIf_shown st g :
  (fg_showif g = None → fg_display g = true) → shown st (showIf st g).
Proof.
  unfold shown, showIf. intros Hnone.
  destruct (fg_showif g) as [[k v]|] eqn:Hg; simpl; rewrite ?Hg.
  - apply bool_decide_eq_true.
  - by apply Hnone.
Qed.

Lemma showIf_showif st g : fg_showif (showIf st g) = fg_showif g.
Proof. unfold showIf. by destruct (fg_showif g) as [[k v]|] eqn:Hg. Qed.

Lemma showIf_names st g :
  fg_tool (showIf st g) = fg_tool g ∧ fg_section (showIf st g) = fg_section g ∧
  fg_key (showIf st g) = fg_key g.
Proof. unfold showIf. by destruct (fg_showif g) as [[k v]|] eqn:Hg. Qed.

Lemma handleShowIf_groups st :
  formGroups (page (handleShowIf st)) = showIf st <$> formGroups (page st).
Proof. unfold handleShowIf. by destruct (page st) eqn:Hp; simpl; rewrite ?Hp. Qed.

Lemma handleShowIf_fresh st :
  (∀ g, g ∈ formGroups (page st) → fg_showif g = None → fg_display g = true) →
  pageFresh (handleShowIf st).
Proof.
  intros Hplain g. rewrite handleShowIf_groups.
  intros Hg. apply list_elem_of_fmap in Hg as (g0 & -> & Hg0).
  apply (shown_ext st); [by rewrite (proj1 (proj2 (handleShowIf_frame st)))
                        | by rewrite (proj1 (proj2 (proj2 (handleShowIf_frame st))))|].
  apply showIf_shown. by apply Hplain.
Qed.

Lemma renderTool_plain details id g :
  g ∈ renderTool details id → fg_display g = true ∧ fg_tool g = id.
Proof.
  unfold renderTool, renderSection.
  destruct (details !! id) as [d|]; [|by intros ?%elem_of_nil].
  rewrite elem_of_app, !list_elem_of_fmap.
  by intros [(kv & -> & _)|(kv & -> & _)].
Qed.

Lemma renderToolParams_fresh st : pageFresh (renderToolParams fetchTool st).
Proof.
  unfold renderToolParams.
  destruct ((map_to_list (selected st)).*1) as [|id ids] eqn:Hids.
  - intros g Hg. by apply elem_of_nil in Hg.
  - destruct (forallb _ _).
    + apply handleShowIf_fresh. intros g Hg _.
      cbn [page set_page formGroups] in Hg.
      apply list_elem_of_bind in Hg as (i & Hg & _).
      by apply renderTool_plain in Hg as [? _].
    + intros g Hg. by apply elem_of_nil in Hg.
Qed.

Lemma renderStep_fresh st : step st = 2 → pageFresh (renderStep fetchTool st).
Proof. unfold renderStep. intros ->. apply renderToolParams_fresh. Qed.

Lemma setParam_fresh toolId sec key value st :
  pageFresh st → pageFresh (setParam toolId sec key value st).
Proof.
  intros Hst. unfold setParam. destruct (raisesOnTool toolId st); [done|].
  apply handleShowIf_fresh. simpl.
  intros g Hg Hnone. specialize (Hst g Hg). unfold shown in Hst.
  by rewrite Hnone in Hst.
Qed.

Lemma fetchMissing_lookup ids details id :
  fetchMissing fetchTool ids details !! id =
    match details !! id with
    | Some d => Some d
    | None => if bool_decide (id ∈ ids) then fetchTool id else None
    end.
Proof.
  unfold fetchMissing. revert details.
  induction ids as [|i ids IH]; intros details; simpl.
  - by destruct (details !! id).
  - rewrite IH. destruct (decide (id = i)) as [->|Hne].
    + rewrite (bool_decide_eq_true_2 (i ∈ i :: ids)) by apply list_elem_of_here.
      destruct (details !! i) as [d|] eqn:Hi; [by rewrite Hi|].
      destruct (fetchTool i) as [d|] eqn:Hf.
      * by rewrite lookup_insert_eq.
      * rewrite Hi. by destruct (bool_decide (i ∈ ids)).
    + assert (Hin : bool_decide (id ∈ i :: ids) = bool_decide (id ∈ ids)).
      { apply bool_decide_ext. rewrite elem_of_cons.
        split; [by intros [?|?] | by right]. }
      rewrite Hin.
      destruct (details !! i); [done|].
      destruct (fetchTool i); [|done]. by rewrite lookup_insert_ne.
Qed.

Lemma active_toolIds st id :
  is_Some (selected st !! id) ↔ id ∈ (map_to_list (selected st)).*1.
Proof.
  rewrite list_elem_of_fmap. split.
  - intros [e He]. exists (id, e). split; [done|]. by apply elem_of_map_to_list.
  - intros ([i e] & -> & Hin). apply elem_of_map_to_list in Hin. by eauto.
Qed.

(** When the details of every active tool are cached or can be fetched,
    [renderToolParams] renders the form. *)
Lemma renderToolParams_rendered st :
  (∀ id, is_Some (selected st !! id) → toolDetails st !! id = None →
         is_Some (fetchTool id)) →
  let toolIds := (map_to_list (selected st)).*1 in
  let details := fetchMissing fetchTool toolIds (toolDetails st) in
  (∀ id, is_Some (selected st !! id) → is_Some (details !! id)) ∧
  selected (renderToolParams fetchTool st) = selected st ∧
  toolDetails (renderToolParams fetchTool st) = details ∧
  ∃ groups,
    page (renderToolParams fetchTool st) = PageParams groups ∧
    groups =
      showIf (set_page (PageParams (mbind (renderTool details) toolIds))
                (set_toolDetails details st))
        <$> mbind (renderTool details) toolIds.
Proof.
  intros Hfetch toolIds details.
  assert (Hall : ∀ id, is_Some (selected st !! id) → is_Some (details !! id)).
  { intros id Hid. subst details. rewrite fetchMissing_lookup.
    destruct (toolDetails st !! id) as [d|] eqn:Hd; [by eauto|].
    rewrite bool_decide_eq_true_2 by (by apply active_toolIds).
    by apply Hfetch. }
  split; [exact Hall|].
  unfold renderToolParams. fold toolIds. fold details.
  destruct toolIds as [|i ids] eqn:Hids.
  { subst details. split; [done|]. split; [done|]. by exists []. }
  cbn [toolDetails set_toolDetails].
  rewrite (proj2 (forallb_forall _ _)).
  - unfold handleShowIf. cbn [page set_page selected toolDetails set_toolDetails].
    repeat split. by eexists.
  - intros id Hin. apply bool_decide_eq_true, Hall, active_toolIds.
    apply list_elem_of_In in Hin. fold toolIds. by rewrite Hids.
Qed.

(** Every declared field of every active tool has its form group on the
    freshly rendered parameter page. *)
Lemma renderToolParams_covers st id e d sec key f :
  (∀ id, is_Some (selected st !! id) → toolDetails st !! id = None →
         is_Some (fetchTool id)) →
  selected st !! id = Some e →
  toolDetails (renderToolParams fetchTool st) !! id = Some d →
  td_section d sec !! key = Some f →
  ∃ g, g ∈ formGroups (page (renderToolParams fetchTool st)) ∧
       fg_tool g = id ∧ fg_section g = sec ∧ fg_key g = key ∧
       fg_showif g = pf_show_if f.
Proof.
  intros Hfetch He Hd Hf.
  destruct (renderToolParams_rendered st Hfetch) as (_ & _ & Hdet & groups & Hp & Hgs).
  rewrite Hdet in Hd. rewrite Hp. cbn [formGroups].
  set (details := fetchMissing fetchTool (map_to_list (selected st)).*1 (toolDetails st)) in *.
  set (st1 := set_page _ _) in Hgs.
  exists (showIf st1 (renderParamField id sec key f)).
  destruct (showIf_names st1 (renderParamField id sec key f)) as (Ht & Hs & Hk).
  split; [|rewrite Ht, Hs, Hk, showIf_showif; repeat split; reflexivity].
  rewrite Hgs. apply list_elem_of_fmap.
  exists (renderParamField id sec key f). split; [reflexivity|].
  apply list_elem_of_bind. exists id.
  split; [|apply active_toolIds; exists e; exact He].
  unfold renderTool. rewrite Hd. unfold renderSection.
  apply elem_of_app. destruct sec; [left|right];
    apply list_elem_of_fmap; exists (key, f);
    (split; [reflexivity | apply elem_of_map_to_list; exact Hf]).
Qed.

Lemma renderToolParams_paramsPage st :
  step st = 2 →
  (∀ id, is_Some (selected st !! id) → toolDetails st !! id = None →
         is_Some (fetchTool id)) →
  paramsPage (renderToolParams fetchTool st).
Proof.
  intros Hstep Hfetch.
  destruct (renderToolParams_rendered st Hfetch) as (Hall & Hsel & Hdet & groups & Hp & Hgs).
  split; [by rewrite (proj1 (renderToolParams_frame fetchTool st))|].
  split; [intros id; rewrite Hsel, Hdet; apply Hall|].
  split; [|split].
  - intros g. rewrite Hp, Hsel, Hgs. cbn [formGroups]. intros Hg.
    apply list_elem_of_fmap in Hg as (g0 & -> & Hg0).
    rewrite (proj1 (showIf_names _ g0)).
    apply list_elem_of_bind in Hg0 as (i & Hg0 & Hi).
    apply renderTool_plain in Hg0 as [_ ->]. by apply active_toolIds.
  - intros id d sec key f [e He] Hd Hf. rewrite Hsel in He.
    by apply (renderToolParams_covers st id e d sec key f).
  - apply renderToolParams_fresh.
Qed.

Lemma setParam_paramsPage toolId sec key value st :
  paramsPage st → is_Some (selected st !! toolId) →
  paramsPage (setParam toolId sec key value st).
Proof.
  intros (Hstep & Hcached & Hact & Hcov & Hfresh) Hactive.
  assert (Hsel : ∀ id, is_Some (selected (setParam toolId sec key value st) !! id)
                       ↔ is_Some (selected st !! id)).
  { intros id. rewrite setParam_selected by (by apply raisesOnTool_active).
    destruct (decide (id = toolId)) as [->|Hne].
    - rewrite lookup_insert_eq. split; [done | by eauto].
    - by rewrite lookup_insert_ne. }
  assert (Hdet : toolDetails (setParam toolId sec key value st) = toolDetails st).
  { unfold setParam. destruct (raisesOnTool toolId st); [done|].
    by rewrite (proj1 (proj2 (proj2 (handleShowIf_frame _)))). }
  assert (Hgs : ∃ st1, formGroups (page (setParam toolId sec key value st))
                       = showIf st1 <$> formGroups (page st)).
  { unfold setParam. rewrite (raisesOnTool_active _ _ Hactive).
    eexists. by rewrite handleShowIf_groups. }
  destruct Hgs as [st1 Hgs].
  split; [|split; [|split; [|split]]].
  - unfold setParam. destruct (raisesOnTool toolId st); [done|].
    by rewrite (proj1 (handleShowIf_frame _)).
  - intros id Hid. rewrite Hdet. by apply Hcached, Hsel.
  - intros g. rewrite Hgs. intros Hg.
    apply list_elem_of_fmap in Hg as (g0 & -> & Hg0).
    rewrite (proj1 (showIf_names _ g0)). by apply Hsel, Hact.
  - intros id d s0 k f Hid Hd Hf. rewrite Hdet in Hd. apply Hsel in Hid.
    destruct (Hcov id d s0 k f Hid Hd Hf) as (g & Hg & Ht & Hs & Hk & Hsi).
    exists (showIf st1 g). rewrite Hgs.
    destruct (showIf_names st1 g) as (-> & -> & ->). rewrite showIf_showif.
    repeat split; try done. apply list_elem_of_fmap. by exists g.
  - by apply setParam_fresh.
Qed.

Lemma toggleMultiParam_paramsPage toolId sec key option st :
  paramsPage st → is_Some (selected st !! toolId) →
  paramsPage (toggleMultiParam fetchTool toolId sec key option st).
Proof.
  intros (Hstep & Hcached & Hact & Hcov & Hfresh) Hactive.
  unfold toggleMultiParam. rewrite (raisesOnTool_active _ _ Hactive). cbv zeta.
  unfold renderStep. cbn [step set_selected]. rewrite Hstep.
  apply renderToolParams_paramsPage; [done|].
  cbn [selected toolDetails set_selected]. intros id Hid Hnone.
  assert (Hid' : is_Some (selected st !! id)).
  { destruct (decide (id = toolId)) as [->|Hne]; [done|].
    by rewrite lookup_insert_ne in Hid. }
  destruct (Hcached id Hid') as [d Hd]. congruence.
Qed.

Lemma paramEvent_paramsPage st ev :
  paramsPage st → paramsPage (paramEvent fetchTool st ev).
Proof.
  intros Hst. pose proof Hst as (_ & _ & Hact & _).
  destruct ev as [i value|i option]; simpl;
    destruct (formGroups (page st) !! i) as [g|] eqn:Hg; try done.
  - apply setParam_paramsPage; [done|]. by eapply Hact, list_elem_of_lookup_2.
  - apply toggleMultiParam_paramsPage; [done|]. by eapply Hact, list_elem_of_lookup_2.
Qed.

Lemma paramEvents_paramsPage events st :
  paramsPage st → paramsPage (foldl (paramEvent fetchTool) st events).
Proof.
  revert st. induction events as [|ev events IH]; intros st Hst; simpl; [done|].
  by apply IH, paramEvent_paramsPage.
Qed.

(** C5.  Enter the parameter step, the details of the active tools being
    cached or fetched, and then use the controls of the page in any way
    (type or pick a value, toggle a chip).  Every field that the schema of
    an active tool declares, in either section, has its form group on the
    page; the group of a field without [show_if] is shown, and the group
    of a field with [show_if = (k, v)] is shown exactly when the live
    value of [k] in the same tool and section — the stored override if
    there is one, else the default of [k], else the empty string — is the
    string [v].  No form group on the page displays the visibility of an
    earlier state. *)
Theorem visibility_tracks_live_value st events :
  (∀ id, is_Some (selected st !! id) → toolDetails st !! id = None →
         is_Some (fetchTool id)) →
  let st' := foldl (paramEvent fetchTool) (goToStep fetchTool 2 st) events in
  (∀ id d sec key f,
     is_Some (selected st' !! id) → toolDetails st' !! id = Some d →
     td_section d sec !! key = Some f →
     ∃ g, g ∈ formGroups (page st') ∧
          fg_tool g = id ∧ fg_section g = sec ∧ fg_key g = key ∧
          match pf_show_if f with
          | None => fg_display g = true
          | Some (k, v) =>
              fg_display g = true ↔ Spec.liveValue id sec k st' = JStr v
          end) ∧
  (∀ g, g ∈ formGroups (page st') →
        match fg_showif g with
        | None => fg_display g = true
        | Some (k, v) =>
            fg_display g = true ↔
            Spec.liveValue (fg_tool g) (fg_section g) k st' = JStr v
        end).
Proof.
  intros Hfetch st'.
  assert (Hpage : paramsPage st').
  { apply paramEvents_paramsPage. unfold goToStep. rewrite decide_False by done.
    unfold renderStep. cbn [step set_step].
    by apply renderToolParams_paramsPage. }
  destruct Hpage as (_ & _ & _ & Hcov & Hfresh).
  assert (Hall : ∀ g, g ∈ formGroups (page st') →
                      match fg_showif g with
                      | None => fg_display g = true
                      | Some (k, v) =>
                          fg_display g = true ↔
                          Spec.liveValue (fg_tool g) (fg_section g) k st' = JStr v
                      end).
  { intros g Hg. specialize (Hfresh g Hg). unfold shown in Hfresh.
    destruct (fg_showif g) as [[k v]|]; [|done].
    by rewrite <- currentVal_liveValue. }
  split; [|exact Hall].
  intros id d sec key f Hid Hd Hf.
  destruct (Hcov id d sec key f Hid Hd Hf) as (g & Hg & Ht & Hs & Hk & Hsi).
  exists g. repeat split; try done.
  specialize (Hall g Hg). by rewrite Hsi, Ht, Hs in Hall.
Qed.

End VisibilityProperties.

(** Scenario A with the weather tool.  At first the connection field is on
    the page and hidden; once [project_connection] is picked in the
    authentication select it is shown; the units field of the runtime
    section, which has no condition, is on the page and shown. *)
Lemma visibility_tracks_live_value_witness :
  let st0 := toggleTool Fixtures.catalog "weather" initialState in
  let entered := goToStep Fixtures.catalog 2 st0 in
  let picked := foldl (paramEvent Fixtures.catalog) entered
                  [EvInput 2 "project_connection"] in
  (∃ g, g ∈ formGroups (page entered) ∧ fg_section g = deploy_params ∧
        fg_key g = "project_connection_id" ∧ fg_display g ≠ true) ∧
  (∃ g, g ∈ formGroups (page picked) ∧ fg_section g = deploy_params ∧
        fg_key g = "project_connection_id" ∧ fg_display g = true) ∧
  (∃ g, g ∈ formGroups (page picked) ∧ fg_section g = runtime_params ∧
        fg_key g = "units" ∧ fg_display g = true).
Proof.
  intros st0 entered picked.
  assert (Hfetch : ∀ id, is_Some (selected st0 !! id) → toolDetails st0 !! id = None →
                         is_Some (Fixtures.catalog id)).
  { intros id _ _. unfold Fixtures.catalog. case_decide; by eauto. }
  destruct (visibility_tracks_live_value Fixtures.catalog st0 [] Hfetch) as [Hentered _].
  destruct (visibility_tracks_live_value Fixtures.catalog st0
              [EvInput 2 "project_connection"] Hfetch) as [Hpicked _].
  assert (Hactive0 : is_Some (selected entered !! "weather")).
  { apply (proj2 (is_Some_alt _)). vm_compute. exact I. }
  assert (Hactive : is_Some (selected picked !! "weather")).
  { apply (proj2 (is_Some_alt _)). vm_compute. exact I. }
  assert (Hd0 : toolDetails entered !! "weather" = Some Fixtures.weather)
    by (vm_compute; reflexivity).
  assert (Hd : toolDetails picked !! "weather" = Some Fixtures.weather)
    by (vm_compute; reflexivity).
  assert (Hconn : td_section Fixtures.weather deploy_params !! "project_connection_id"
                  = Some Fixtures.connection) by (vm_compute; reflexivity).
  assert (Hunits : td_section Fixtures.weather runtime_params !! "units"
                   = Some (Fixtures.field "Units" "select" (Some (JStr "fahrenheit"))
                             false ["fahrenheit"; "celsius"] None))
    by (vm_compute; reflexivity).
  assert (Hlive0 : Spec.liveValue "weather" deploy_params "auth_type" entered
                   ≠ JStr "project_connection")
    by (vm_compute; intros H; discriminate H).
  assert (Hlive : Spec.liveValue "weather" deploy_params "auth_type" picked
                  = JStr "project_connection") by (vm_compute; reflexivity).
  split; [|split].
  - destruct (Hentered "weather" Fixtures.weather deploy_params "project_connection_id"
                Fixtures.connection Hactive0 Hd0 Hconn)
      as (g & Hg & _ & Hs & Hk & Hshow).
    exists g. split; [exact Hg|]. split; [exact Hs|]. split; [exact Hk|].
    intros Htrue. apply Hlive0. exact (proj1 Hshow Htrue).
  - destruct (Hpicked "weather" Fixtures.weather deploy_params "project_connection_id"
                Fixtures.connection Hactive Hd Hconn)
      as (g & Hg & _ & Hs & Hk & Hshow).
    exists g. split; [exact Hg|]. split; [exact Hs|]. split; [exact Hk|].
    exact (proj2 Hshow Hlive).
  - destruct (Hpicked "weather" Fixtures.weather runtime_params "units" _
                Hactive Hd Hunits)
      as (g & Hg & _ & Hs & Hk & Hshow).
    exists g. split; [exact Hg|]. split; [exact Hs|]. split; [exact Hk|].
    exact Hshow.
Defined.

Section ChipProperties.

Variable fetchTool : string → option ToolDetail.

Lemma toggleMultiParam_selected toolId sec key option st :
  raisesOnTool toolId st = false →
  selected (toggleMultiParam fetchTool toolId sec key option st) =
    <[toolId :=
        sel_store sec key
          (JArr (let arr := arrayOrEmpty (sel_section (entryOrFresh toolId st) sec !! key) in
                 if includes arr option then without option arr
                 else arr ++ [option]))
          (entryOrFresh toolId st)]> (selected st).
Proof. unfold toggleMultiParam. intros ->. by rewrite renderStep_selected. Qed.

Lemma toggleMultiParam_stored toolId sec key option e arr st :
  selected st !! toolId = Some e →
  sel_section e sec !! key = Some (JArr arr) →
  ∃ e',
    selected (toggleMultiParam fetchTool toolId sec key option st) !! toolId
      = Some e' ∧
    sel_section e' sec !! key =
      Some (JArr (if includes arr option then without option arr
                  else arr ++ [option])).
Proof.
  intros He Hk. eexists. split.
  - rewrite toggleMultiParam_selected by (apply raisesOnTool_active; by eauto).
    apply lookup_insert_eq.
  - rewrite sel_store_same, lookup_insert_eq.
    unfold entryOrFresh. rewrite He. simpl. by rewrite Hk.
Qed.

(** Where the claim of C2 does hold: once a list is stored for the key,
    toggling an option twice stores a list with the same members. *)
Lemma toggleMultiParam_twice_stored toolId sec key option e arr st :
  selected st !! toolId = Some e →
  sel_section e sec !! key = Some (JArr arr) →
  ∃ e2 arr2,
    selected (toggleMultiParam fetchTool toolId sec key option
                (toggleMultiParam fetchTool toolId sec key option st)) !! toolId
      = Some e2 ∧
    sel_section e2 sec !! key = Some (JArr arr2) ∧
    ∀ x, x ∈ arr2 ↔ x ∈ arr.
Proof.
  intros He Hk.
  destruct (toggleMultiParam_stored toolId sec key option e arr st He Hk)
    as (e1 & He1 & Hk1).
  destruct (toggleMultiParam_stored toolId sec key option e1 _ _ He1 Hk1)
    as (e2 & He2 & Hk2).
  exists e2. eexists. split; [exact He2|]. split; [exact Hk2|].
  intros x. unfold includes, without.
  destruct (bool_decide (option ∈ arr)) eqn:Hin.
  - apply bool_decide_eq_true in Hin.
    rewrite bool_decide_eq_false_2.
    + rewrite elem_of_app, list_elem_of_filter, list_elem_of_singleton.
      split.
      * intros [[_ Hx]| ->]; [exact Hx | exact Hin].
      * intros Hx. destruct (decide (x = option)) as [->|Hne]; [by right|by left].
    + rewrite list_elem_of_filter. by intros [Hne _].
  - apply bool_decide_eq_false in Hin.
    rewrite bool_decide_eq_true_2.
    + rewrite list_elem_of_filter, elem_of_app, list_elem_of_singleton.
      split.
      * intros [Hne [Hx| ->]]; [exact Hx | done].
      * intros Hx. split; [by intros -> | by left].
    + rewrite elem_of_app, list_elem_of_singleton. by right.
Qed.

End ChipProperties.

(** C2, the code at the failing input.  The [operations] field of the
    weather tool comes with both options as its default and nothing is
    stored for it, so both chips are rendered selected.  The first toggle
    of [getWeather] reads the stored list only (there is none), so it
    stores the one-element list; the second toggle removes it again.  The
    field started from both options and ends with none. *)
Theorem toggleMultiParam_twice_drops_default :
  let toggle := toggleMultiParam Fixtures.catalog "weather" deploy_params
                  "operations" "getWeather" in
  let chips := selectedChips "weather" deploy_params "operations"
                 Fixtures.operations in
  chips Fixtures.weatherSelected = ["getWeather"; "getForecast"] ∧
  chips (toggle Fixtures.weatherSelected) = ["getWeather"] ∧
  chips (toggle (toggle Fixtures.weatherSelected)) = [] ∧
  "getForecast" ∈ chips Fixtures.weatherSelected ∧
  "getForecast" ∉ chips (toggle (toggle Fixtures.weatherSelected)).
Proof.
  repeat split; try by vm_compute.
  - vm_compute. apply list_elem_of_further, list_elem_of_here.
  - vm_compute. apply not_elem_of_nil.
Qed.

(* ================================================================== *)
(** ** Configuration step: the gate before deploying *)
(* ================================================================== *)

(** Scenario B: with an empty name the step does not change; once a name
    is typed in, the wizard moves on. *)
Lemma goToStep_4_scenario_B :
  step (goToStep Fixtures.catalog 4 Fixtures.namelessDraft) = 3 ∧
  page Fixtures.namelessDraft = PageConfig "" "You are helpful" true ∧
  step (goToStep Fixtures.catalog 4
          (inputAgentName "bot-1" Fixtures.namelessDraft)) = 4.
Proof. by vm_compute. Qed.

(** A disabled Deploy button does nothing. *)
Lemma clickDeploy_disabled fetchTool n i st :
  page st = PageConfig n i true → clickDeploy fetchTool st = st.
Proof. unfold clickDeploy. by intros ->. Qed.

(** C9, the code at the failing input.  The name typed in is three spaces.
    [checkReady] disables the button, but step 3 rendered again from
    [state] enables it (it tests [state.agentName] untrimmed), and
    [goToStep(4)] falls back from the blank trimmed input to the same
    untrimmed [state.agentName]: the wizard moves to step 4 and the
    payload carries an empty name. *)
Theorem goToStep_4_admits_blank_name :
  let st := Fixtures.blankNameDraft in
  step st = 3 ∧
  page st = PageConfig "   " "You are helpful" false ∧
  trim (agentName st) = "" ∧
  step (clickDeploy Fixtures.catalog st) = 4 ∧
  p_name (deployPayload (clickDeploy Fixtures.catalog st)) = "".
Proof. by vm_compute. Qed.

(* ================================================================== *)
(** ** Deploy: success and failure *)
(* ================================================================== *)

Section DeployProperties.

Variable fetchTool : string → option ToolDetail.

Lemma renderDeploy_ok_session agent st :
  step (renderDeploy fetchTool (DeployOk agent) st) = 5 ∧
  deployedAgent (renderDeploy fetchTool (DeployOk agent) st) = Some agent ∧
  chatHistory (renderDeploy fetchTool (DeployOk agent) st) = [] ∧
  previousResponseId (renderDeploy fetchTool (DeployOk agent) st) = None.
Proof.
  unfold renderDeploy, renderDeploy_settle.
  destruct (renderStep_frame fetchTool
              (set_step 5
                 (set_previousResponseId None
                    (set_chatHistory []
                       (set_deployedAgent (Some agent) (renderDeploy_begin st))))))
    as (Hs & _ & Ha & Hh & Hp & _).
  by rewrite Hs, Ha, Hh, Hp.
Qed.



End DeployProperties.



(* ================================================================== *)
(** ** Chat: confirming parameters, threading turns *)
(* ================================================================== *)

Section ChatProperties.

Variable fetchTool : string → option ToolDetail.

Lemma requiredParamBlank_existsb st :
  existsb (λ p, pp_required p && blankValue (paramValues st !! pp_key p))
    (getActivePromptParams st) = true ↔ Spec.requiredParamBlank st.
Proof.
  unfold Spec.requiredParamBlank. rewrite existsb_exists.
  split; intros (p & Hin & Hp); exists p.
  - apply andb_true_iff in Hp as [? ?]. by rewrite list_elem_of_In.
  - rewrite <- list_elem_of_In. destruct Hp as [-> ->]. by split.
Qed.

Lemma contextLines_nil st ps :
  omap (contextLine st) ps = [] ↔ ∀ p, p ∈ ps → shownValue p st = "".
Proof.
  induction ps as [|q ps IH]; simpl.
  - split; [by intros _ p ?%elem_of_nil | done].
  - unfold contextLine at 1.
    destruct (shownValue q st) as [|c s] eqn:Hq; simpl.
    + rewrite IH. split.
      * intros H p [->|Hp]%elem_of_cons; [done | by apply H].
      * intros H p Hp. apply H. by right.
    + split; [done|]. intros H.
      specialize (H q (list_elem_of_here _ _)). by rewrite Hq in H.
Qed.

(** C6, as the code has it.  While a required prompt parameter has a
    blank value, [confirmChatParams] changes nothing.  Otherwise the
    session is confirmed, and one context message listing the parameters
    with a non-empty value (their own or their default) is appended to
    the history when there is such a parameter; when every parameter
    shows an empty value, nothing is appended. *)
Theorem confirmChatParams_outcome st :
  let st' := confirmChatParams fetchTool st in
  let lines := omap (contextLine st) (getActivePromptParams st) in
  (Spec.requiredParamBlank st → st' = st) ∧
  (¬ Spec.requiredParamBlank st →
     chatParamsConfirmed st' = true ∧
     ((∃ p, p ∈ getActivePromptParams st ∧ shownValue p st ≠ "") →
        chatHistory st' = chatHistory st ++ [contextMessage lines]) ∧
     ((∀ p, p ∈ getActivePromptParams st → shownValue p st = "") →
        chatHistory st' = chatHistory st)).
Proof.
  intros st' lines. subst st'. unfold confirmChatParams.
  pose proof (requiredParamBlank_existsb st) as Hblank.
  destruct (existsb _ _) eqn:Hex.
  - split; [done|]. intros Hn. destruct Hn. by apply Hblank.
  - split; [intros Hb; apply Hblank in Hb; discriminate|].
    intros _.
    change (omap (contextLine (set_chatParamsConfirmed true st))
              (getActivePromptParams st)) with lines.
    pose proof (contextLines_nil st (getActivePromptParams st)) as Hnil.
    fold lines in Hnil.
    split; [|split].
    + destruct (renderStep_frame fetchTool
                  (match lines with
                   | [] => set_chatParamsConfirmed true st
                   | _ :: _ =>
                       set_chatHistory
                         (chatHistory (set_chatParamsConfirmed true st)
                            ++ [contextMessage lines])
                         (set_chatParamsConfirmed true st)
                   end)) as (_ & _ & _ & _ & _ & ->).
      by destruct lines.
    + intros (p & Hp & Hv).
      destruct lines as [|l ls] eqn:Hl.
      * destruct Hv. by apply Hnil.
      * by rewrite (proj1 (proj2 (proj2 (proj2 (renderStep_frame fetchTool _))))).
    + intros Hall. apply Hnil in Hall. rewrite Hall.
      by rewrite (proj1 (proj2 (proj2 (proj2 (renderStep_frame fetchTool _))))).
Qed.

Lemma sendChat_begin_Some input st st1 req :
  sendChat_begin input st = Some (st1, req) →
  cq_previous_response_id req = previousResponseId st ∧
  previousResponseId st1 = previousResponseId st.
Proof.
  unfold sendChat_begin. destruct (page st); try done.
  destruct (truthy (trim input)); [|done].
  intros [= <- <-]. done.
Qed.

Lemma chatRun_threads turns st :
  (∀ req res, (chatRun turns st).1 !! 0 = Some (req, res) →
              cq_previous_response_id req = previousResponseId st) ∧
  (∀ n req data req' res',
     (chatRun turns st).1 !! n = Some (req, ChatOk data) →
     (chatRun turns st).1 !! S n = Some (req', res') →
     cq_previous_response_id req' = Some (cd_response_id data)).
Proof.
  revert st. induction turns as [|[input res] rest IH]; intros st; simpl.
  - split; intros; discriminate.
  - destruct (sendChat_begin input st) as [[st1 rq]|] eqn:Hb; [|apply IH].
    apply sendChat_begin_Some in Hb as [Hrq Hst1].
    destruct (IH (sendChat_settle res st1)) as [IH0 IHn].
    destruct (chatRun rest (sendChat_settle res st1)) as [trace st2]; simpl in *.
    split.
    + intros req res0 [= <- <-]. exact Hrq.
    + intros [|n] req data req' res' H1 H2; simpl in *.
      * injection H1 as <- ->. by rewrite (IH0 _ _ H2).
      * by apply (IHn n req data req' res').
Qed.

(** A second input submitted before the first one is settled leaves with
    the token of the first. *)
Lemma sendChat_begin_twice_same_token input1 input2 st st1 st2 req1 req2 :
  sendChat_begin input1 st = Some (st1, req1) →
  sendChat_begin input2 st1 = Some (st2, req2) →
  cq_previous_response_id req2 = cq_previous_response_id req1.
Proof.
  intros [H1 H1']%sendChat_begin_Some [H2 _]%sendChat_begin_Some. congruence.
Qed.

(** Turns settled in order, each input submitted after the answer to the
    one before it has arrived ([chatRun]), starting from a session without
    a continuation token: the first request that leaves carries no
    [previous_response_id], and whenever the request of a turn was
    answered successfully, the next request that leaves carries exactly
    the [response_id] of that answer. *)
Lemma chat_requests_thread_response_id turns st :
  previousResponseId st = None →
  let trace := (chatRun turns st).1 in
  (∀ req res, trace !! 0 = Some (req, res) →
              cq_previous_response_id req = None) ∧
  (∀ n req data req' res',
     trace !! n = Some (req, ChatOk data) →
     trace !! S n = Some (req', res') →
     cq_previous_response_id req' = Some (cd_response_id data)).
Proof.
  intros Hfresh trace. subst trace.
  destruct (chatRun_threads turns st) as [H0 Hn].
  split; [|exact Hn].
  intros req res Hreq. rewrite <- Hfresh. by apply (H0 req res).
Qed.

End ChatProperties.

(** C6, the claim as stated fails: the only parameter is optional and its
    value and default are empty; confirming succeeds and the history is as
    empty as before, no context message was appended. *)
Lemma confirmChatParams_all_empty_appends_nothing :
  let st := Fixtures.chatWith [Fixtures.tone] in
  ¬ Spec.requiredParamBlank st ∧
  chatParamsConfirmed st = false ∧
  chatParamsConfirmed (confirmChatParams Fixtures.catalog st) = true ∧
  chatHistory st = [] ∧
  chatHistory (confirmChatParams Fixtures.catalog st) = [].
Proof.
  intros st. split; [|by vm_compute].
  intros Hb. apply (requiredParamBlank_existsb st) in Hb. by vm_compute in Hb.
Qed.

(** Scenario D: a required parameter without a value refuses the
    confirmation; with a value typed in, the confirmation goes through and
    one context message naming it is appended. *)
Lemma confirmChatParams_outcome_witness :
  let st := Fixtures.chatWith [Fixtures.purpose] in
  let st1 := inputChatParam "purpose" "follow-up" st in
  confirmChatParams Fixtures.catalog st = st ∧
  chatParamsConfirmed (confirmChatParams Fixtures.catalog st1) = true ∧
  chatHistory (confirmChatParams Fixtures.catalog st1) =
    chatHistory st1 ++
      [{| role := context;
          content := "Agent parameters set:" +:+ newline
                     +:+ "**Purpose of email:** follow-up";
          toolCalls := None |}].
Proof.
  intros st st1.
  assert (Hblank : Spec.requiredParamBlank st).
  { exists Fixtures.purpose. split; [|split].
    - vm_compute. apply list_elem_of_here.
    - reflexivity.
    - vm_compute. reflexivity. }
  assert (Hn : ¬ Spec.requiredParamBlank st1).
  { intros Hb. apply (requiredParamBlank_existsb st1) in Hb.
    vm_compute in Hb. discriminate Hb. }
  assert (Hshown : ∃ p, p ∈ getActivePromptParams st1 ∧ shownValue p st1 ≠ "").
  { exists Fixtures.purpose. split.
    - vm_compute. apply list_elem_of_here.
    - vm_compute. discriminate. }
  pose proof (confirmChatParams_outcome Fixtures.catalog st) as [Hrefused _].
  pose proof (confirmChatParams_outcome Fixtures.catalog st1) as [_ Hok].
  split; [exact (Hrefused Hblank)|].
  split; [exact (proj1 (Hok Hn))|].
  exact (proj1 (proj2 (Hok Hn)) Hshown).
Defined.

(** C7, the code at the failing input.  The Enter key in the chat input
    calls [sendChat] whether or not a request is pending (only the Send
    button is disabled meanwhile).  Two inputs are submitted one after the
    other and the two answers arrive afterwards: both requests carry no
    [previous_response_id], although the first one was answered
    successfully with [resp_1]; the second turn does not continue the
    first, and the history holds the two questions before the two
    answers. *)
Theorem chat_second_request_misses_response_id :
  let events := [EvSend "hi"; EvSend "and then?";
                 EvSettle (Fixtures.reply "hello" "resp_1");
                 EvSettle (Fixtures.reply "more" "resp_2")] in
  let run := chatEvents events (Fixtures.chatWith []) in
  page (Fixtures.chatWith []) = PageChat ∧
  cs_pending run = 0 ∧
  (cq_message <$> cs_sent run) = ["hi"; "and then?"] ∧
  (cq_previous_response_id <$> cs_sent run) = [None; None] ∧
  (cq_previous_response_id <$> cs_sent run) !! 1 ≠ Some (Some "resp_1") ∧
  (content <$> chatHistory (cs_state run)) = ["hi"; "and then?"; "hello"; "more"] ∧
  previousResponseId (cs_state run) = Some "resp_2".
Proof.
  repeat split; try (vm_compute; reflexivity).
  vm_compute. intros H; discriminate H.
Qed.

Lemma chat_requests_thread_response_id_witness :
  let turns := [("hi", Fixtures.reply "hello" "resp_1");
                ("and then?", Fixtures.reply "more" "resp_2")] in
  let trace := (chatRun turns (Fixtures.chatWith [])).1 in
  let request message token :=
    {| cq_agent_name := "bot-1"; cq_message := message;
       cq_previous_response_id := token; cq_param_values := ∅ |} in
  previousResponseId (Fixtures.chatWith []) = None ∧
  trace !! 0 = Some (request "hi" None, Fixtures.reply "hello" "resp_1") ∧
  trace !! 1 = Some (request "and then?" (Some "resp_1"),
                     Fixtures.reply "more" "resp_2") ∧
  cq_previous_response_id (request "hi" None) = None ∧
  cq_previous_response_id (request "and then?" (Some "resp_1")) = Some "resp_1".
Proof.
  intros turns trace request.
  assert (Hfresh : previousResponseId (Fixtures.chatWith []) = None)
    by (vm_compute; reflexivity).
  assert (E0 : trace !! 0 = Some (request "hi" None, Fixtures.reply "hello" "resp_1"))
    by (vm_compute; reflexivity).
  assert (E1 : trace !! 1 = Some (request "and then?" (Some "resp_1"),
                                  Fixtures.reply "more" "resp_2"))
    by (vm_compute; reflexivity).
  pose proof (chat_requests_thread_response_id turns (Fixtures.chatWith []) Hfresh)
    as [H0 Hn].
  split; [exact Hfresh|]. split; [exact E0|]. split; [exact E1|]. split.
  - exact (H0 _ _ E0).
  - exact (Hn 0 _ _ _ _ E0 E1).
Defined.

(* ================================================================== *)
(** ** Trimming and comma-separated lists *)
(* ================================================================== *)

Lemma trimStart_startsClean s : startsClean (trimStart s).
Proof.
  induction s as [|c r IH]; simpl; [done|].
  by destruct (is_ws c) eqn:Hc.
Qed.

Lemma trimStart_clean s : startsClean s → trimStart s = s.
Proof. destruct s as [|c r]; simpl; [done|]. by intros ->. Qed.

Lemma trimEnd_startsClean s : startsClean s → startsClean (trimEnd s).
Proof.
  destruct s as [|c r]; simpl; [done|]. intros Hc.
  destruct (trimEnd r); simpl; by rewrite ?Hc.
Qed.

Lemma trimEnd_idemp s : trimEnd (trimEnd s) = trimEnd s.
Proof.
  induction s as [|c r IH]; simpl; [done|].
  destruct (trimEnd r) as [|c' r'] eqn:Hr.
  - destruct (is_ws c) eqn:Hc; simpl; [done|]. by rewrite Hc.
  - simpl in *. by rewrite IH.
Qed.

(** Trimming twice is trimming once. *)
Lemma trim_idemp s : trim (trim s) = trim s.
Proof.
  unfold trim.
  rewrite (trimStart_clean (trimEnd (trimStart s))).
  - apply trimEnd_idemp.
  - apply trimEnd_startsClean, trimStart_startsClean.
Qed.

Lemma trim_leading_space s : trim (String " " s) = trim s.
Proof. done. Qed.

Lemma splitComma_nonempty s : splitComma s ≠ [].
Proof.
  destruct s as [|c r]; simpl; [done|].
  destruct (isComma c); [done|]. by destruct (splitComma r).
Qed.

Lemma splitComma_noComma x : noComma x = true → splitComma x = [x].
Proof.
  induction x as [|c r IH]; simpl; [done|].
  intros [Hc Hr]%andb_true_iff. apply negb_true_iff in Hc.
  by rewrite Hc, IH.
Qed.

Lemma splitComma_piece x rest :
  noComma x = true →
  splitComma (x +:+ String "," rest) = x :: splitComma rest.
Proof.
  induction x as [|c r IH]; simpl; [done|].
  intros [Hc Hr]%andb_true_iff. apply negb_true_iff in Hc.
  by rewrite Hc, IH.
Qed.

Lemma splitComma_pieces_noComma s : Forall (λ x, noComma x = true) (splitComma s).
Proof.
  induction s as [|c r IH]; simpl; [by repeat constructor|].
  destruct (isComma c) eqn:Hc; [by constructor|].
  destruct (splitComma r) as [|x xs]; simpl.
  - repeat constructor. simpl. by rewrite Hc.
  - inversion IH; subst. constructor; [|done]. simpl. by rewrite Hc.
Qed.

Lemma noComma_trimStart s : noComma s = true → noComma (trimStart s) = true.
Proof.
  induction s as [|c r IH]; simpl; [done|].
  intros [Hc Hr]%andb_true_iff.
  destruct (is_ws c); [by apply IH|]. simpl. by rewrite Hc, Hr.
Qed.

Lemma noComma_trimEnd s : noComma s = true → noComma (trimEnd s) = true.
Proof.
  induction s as [|c r IH]; simpl; [done|].
  intros [Hc Hr]%andb_true_iff. specialize (IH Hr).
  destruct (trimEnd r) as [|c' r'].
  - destruct (is_ws c); simpl; [done|]. by rewrite Hc.
  - simpl in *. by rewrite Hc, IH.
Qed.

(** What [parseList] returns is made of good items only. *)
Lemma parseList_good val : Forall goodItem (parseList val).
Proof.
  unfold parseList. apply Forall_forall. intros x Hx.
  apply list_elem_of_filter in Hx as [Hx Hin].
  apply list_elem_of_fmap in Hin as (y & -> & Hy).
  pose proof (splitComma_pieces_noComma val) as Hall.
  rewrite Forall_forall in Hall. specialize (Hall y Hy).
  repeat split; [apply trim_idemp | done |].
  unfold trim. by apply noComma_trimEnd, noComma_trimStart.
Qed.

Lemma goodItem_space x : goodItem x → noComma (String " " x) = true.
Proof. intros (_ & _ & Hc). change (noComma x = true). exact Hc. Qed.

Lemma trim_splitComma_join l :
  Forall goodItem l → l ≠ [] →
  trim <$> splitComma (join ", " l) = l ∧
  trim <$> splitComma (String " " (join ", " l)) = l.
Proof.
  induction l as [|x [|y r] IH]; intros Hall Hne; [done| |].
  - inversion Hall as [|? ? (Ht & Hn & Hc) _]; subst.
    change (join ", " [x]) with x.
    rewrite (splitComma_noComma x Hc).
    rewrite (splitComma_noComma (String " " x)) by done.
    rewrite !fmap_cons, !fmap_nil. by rewrite trim_leading_space, Ht.
  - inversion Hall as [|? ? (Ht & Hn & Hc) Hrest]; subst.
    destruct (IH Hrest) as [_ IH2]; [done|].
    change (join ", " (x :: y :: r))
      with (x +:+ String "," (String " " (join ", " (y :: r)))).
    split.
    + rewrite (splitComma_piece x _ Hc), fmap_cons. by rewrite Ht, IH2.
    + change (String " " (x +:+ String "," (String " " (join ", " (y :: r)))))
        with (String " " x +:+ String "," (String " " (join ", " (y :: r)))).
      rewrite (splitComma_piece (String " " x)) by done.
      rewrite fmap_cons. by rewrite trim_leading_space, Ht, IH2.
Qed.

Lemma filter_truthy_all (l : list string) :
  Forall (λ x, truthy x = true) l → filter (λ x, truthy x = true) l = l.
Proof.
  induction 1 as [|x l Hx _ IH]; [done|].
  by rewrite filter_cons_True, IH.
Qed.

(** Round trip: a list of good items joined with [', '] parses back to
    itself. *)
Lemma parseList_join l : Forall goodItem l → parseList (join ", " l) = l.
Proof.
  intros Hall. destruct l as [|x r]; [done|].
  unfold parseList. rewrite (proj1 (trim_splitComma_join _ Hall ltac:(done))).
  apply filter_truthy_all. eapply Forall_impl; [exact Hall|].
  by intros y (_ & Hy & _).
Qed.

(** X1.  Round trip of the comma-separated form: what [parseList] returns is
    always made of good items (trimmed, not empty, no comma), and a list of
    good items joined with [', '] parses back to itself. *)
Theorem parseList_round_trip val l :
  Forall goodItem (parseList val) ∧
  (Forall goodItem l → parseList (join ", " l) = l).
Proof. split; [apply parseList_good | apply parseList_join]. Qed.

Lemma parseList_round_trip_witness :
  Forall goodItem ["formal"; "warm tone"] ∧
  parseList "formal, warm tone" = ["formal"; "warm tone"].
Proof.
  assert (H : Forall goodItem ["formal"; "warm tone"]) by (repeat constructor).
  split; [exact H|].
  exact (proj2 (parseList_round_trip "" ["formal"; "warm tone"]) H).
Defined.

(* ================================================================== *)
(** ** Chat parameters: pre-filling, chips, summary bar *)
(* ================================================================== *)

Section ChatParamProperties.

Variable fetchTool : string → option ToolDetail.

Lemma or_else_empty a : or_else a "" = a.
Proof. by destruct a. Qed.

Lemma prefill_lookup ps vs k :
  prefillParamValues ps vs !! k =
    match vs !! k with
    | Some v => Some v
    | None => (λ ip, pp_default ip.2) <$> list_find (λ p, pp_key p = k) ps
    end.
Proof.
  unfold prefillParamValues. revert vs.
  induction ps as [|p ps IH]; intros vs; simpl.
  - by destruct (vs !! k).
  - rewrite IH. destruct (decide (pp_key p = k)) as [<-|Hne].
    + destruct (vs !! pp_key p) as [v|] eqn:Hv; [by rewrite Hv|].
      by rewrite lookup_insert_eq, or_else_empty.
    + destruct (vs !! pp_key p) as [v|] eqn:Hv.
      * destruct (vs !! k); [done|].
        destruct (list_find _ ps) as [[i q]|]; done.
      * rewrite lookup_insert_ne by done.
        destruct (vs !! k); [done|].
        destruct (list_find _ ps) as [[i q]|]; done.
Qed.


Lemma prefillParamValues_keeps ps vs k v :
  vs !! k = Some v → prefillParamValues ps vs !! k = Some v.
Proof. intros H. by rewrite prefill_lookup, H. Qed.

Lemma renderStep_paramValues_keeps st k v :
  paramValues st !! k = Some v →
  paramValues (renderStep fetchTool st) !! k = Some v.
Proof.
  intros Hk. unfold renderStep.
  destruct (step st) as [|[|[|[|[|[|n]]]]]]; try done.
  - unfold renderToolParams.
    destruct ((map_to_list (selected st)).*1); [done|].
    destruct (forallb _ _); [|done].
    unfold handleShowIf. by simpl.
  - unfold renderChat.
    destruct (getActivePromptParams st) as [|p ps]; [done|].
    destruct (chatParamsConfirmed st); [done|].
    unfold renderChatParamForm. cbn [paramValues set_page set_paramValues].
    by apply prefillParamValues_keeps.
Qed.

Lemma chatSelection_good key st : Forall goodItem (chatSelection key st).
Proof.
  unfold chatSelection. destruct (truthy _); [apply parseList_good | constructor].
Qed.

Lemma toggled_good option arr :
  goodItem option → Forall goodItem arr → Forall goodItem (toggled option arr).
Proof.
  intros Ho Harr. unfold toggled, without.
  destruct (includes arr option).
  - apply Forall_forall. intros x [_ Hx]%list_elem_of_filter.
    rewrite Forall_forall in Harr. by apply Harr.
  - apply Forall_app. split; [done|]. by constructor.
Qed.

Lemma join_good_truthy l :
  Forall goodItem l → l ≠ [] → truthy (join ", " l) = true.
Proof.
  intros Hall Hne. destruct l as [|x [|y r]]; [done| |].
  - by inversion Hall as [|? ? (_ & Hx & _) _].
  - inversion Hall as [|? ? (_ & Hx & _) _]; subst.
    change (join ", " (x :: y :: r)) with (x +:+ ", " +:+ join ", " (y :: r)).
    by destruct x.
Qed.

Lemma toggleChatParam_chatSelection key option st :
  goodItem option →
  chatSelection key (toggleChatParam fetchTool key option st)
    = toggled option (chatSelection key st).
Proof.
  intros Ho.
  pose proof (toggled_good option _ Ho (chatSelection_good key st)) as Hgood.
  unfold chatSelection at 1, toggleChatParam.
  fold (toggled option (chatSelection key st)).
  rewrite (renderStep_paramValues_keeps _ key (join ", " (toggled option (chatSelection key st))))
    by (simpl; apply lookup_insert_eq).
  simpl. rewrite or_else_empty.
  destruct (toggled option (chatSelection key st)) as [|x r] eqn:Ht; [done|].
  rewrite join_good_truthy by done.
  by apply parseList_join.
Qed.

(** X3.  The chips of a multi-select prompt parameter survive the string they
    are stored in: after one toggle of a good option (trimmed, not empty,
    no comma) the selection read back from [state.paramValues] is the
    selection before with that option removed if it was there, appended
    if it was not. *)
Theorem toggleChatParam_selection key option st :
  goodItem option →
  chatSelection key (toggleChatParam fetchTool key option st)
    = (if bool_decide (option ∈ chatSelection key st)
       then filter (λ y, y ≠ option) (chatSelection key st)
       else chatSelection key st ++ [option]).
Proof. apply toggleChatParam_chatSelection. Qed.

Lemma toggled_twice_members option arr x :
  x ∈ toggled option (toggled option arr) ↔ x ∈ arr.
Proof.
  unfold toggled, includes, without.
  destruct (bool_decide (option ∈ arr)) eqn:Hin.
  - apply bool_decide_eq_true in Hin.
    rewrite bool_decide_eq_false_2.
    + rewrite elem_of_app, list_elem_of_filter, list_elem_of_singleton.
      split.
      * intros [[_ Hx]| ->]; [exact Hx | exact Hin].
      * intros Hx. destruct (decide (x = option)) as [->|Hne]; [by right|by left].
    + rewrite list_elem_of_filter. by intros [Hne _].
  - apply bool_decide_eq_false in Hin.
    rewrite bool_decide_eq_true_2.
    + rewrite list_elem_of_filter, elem_of_app, list_elem_of_singleton.
      split.
      * intros [Hne [Hx| ->]]; [exact Hx | done].
      * intros Hx. split; [by intros -> | by left].
    + rewrite elem_of_app, list_elem_of_singleton. by right.
Qed.

(** X4.  Toggling a good option of a multi-select prompt parameter twice gives
    back a selection with the same members, whatever was stored before
    (a default, a hand-typed list, nothing). *)
Theorem toggleChatParam_twice key option st :
  goodItem option →
  ∀ x, x ∈ chatSelection key
             (toggleChatParam fetchTool key option
                (toggleChatParam fetchTool key option st))
       ↔ x ∈ chatSelection key st.
Proof.
  intros Ho x.
  rewrite !toggleChatParam_chatSelection by done.
  apply toggled_twice_members.
Qed.

(** X5.  [editChatParams] goes back to the parameter form and resets nothing
    else: the history, the continuation token and the deployed agent are
    kept, and so is every value typed in before. *)
Theorem editChatParams_keeps_session st :
  chatParamsConfirmed (editChatParams fetchTool st) = false ∧
  chatHistory (editChatParams fetchTool st) = chatHistory st ∧
  previousResponseId (editChatParams fetchTool st) = previousResponseId st ∧
  deployedAgent (editChatParams fetchTool st) = deployedAgent st ∧
  ∀ k v, paramValues st !! k = Some v →
         paramValues (editChatParams fetchTool st) !! k = Some v.
Proof.
  unfold editChatParams.
  destruct (renderStep_frame fetchTool (set_chatParamsConfirmed false st))
    as (_ & _ & Ha & Hh & Hp & Hc).
  rewrite Ha, Hh, Hp, Hc. repeat split.
  intros k v Hk. by apply renderStep_paramValues_keeps.
Qed.

(** X6.  The summary bar above the conversation shows exactly the label/value
    pairs that the context message of [confirmChatParams] lists, and it is
    left out, Edit button included, exactly when there is no such pair. *)
Theorem renderParamSummaryBar_matches_context st :
  match renderParamSummaryBar st with
  | None => omap (contextLine st) (getActivePromptParams st) = []
  | Some chips =>
      chips ≠ [] ∧
      omap (contextLine st) (getActivePromptParams st) = chipLine <$> chips
  end.
Proof.
  unfold renderParamSummaryBar.
  set (chips := (omap _ (getActivePromptParams st) : list (string * string))).
  assert (H : omap (contextLine st) (getActivePromptParams st) = chipLine <$> chips).
  { subst chips.
    induction (getActivePromptParams st) as [|p ps IH]; [done|].
    assert (Hp : contextLine st p =
                 chipLine <$> (if truthy (shownValue p st)
                               then Some (or_else (pp_label p) (pp_key p), shownValue p st)
                               else None)).
    { unfold contextLine. by destruct (truthy (shownValue p st)). }
    simpl. rewrite Hp.
    destruct (truthy (shownValue p st)); simpl; [f_equal|]; exact IH. }
  destruct chips as [|c cs]; [exact H|].
  split; [done|exact H].
Qed.




End ChatParamProperties.

Lemma toggleChatParam_selection_witness :
  let st := inputChatParam "tone" "warm" (Fixtures.chatWith [Fixtures.tone]) in
  goodItem "professional" ∧
  chatSelection "tone" st = ["warm"] ∧
  chatSelection "tone" (toggleChatParam Fixtures.catalog "tone" "professional" st)
    = ["warm"; "professional"].
Proof.
  intros st.
  assert (Hg : goodItem "professional") by (by repeat split).
  assert (Hs : chatSelection "tone" st = ["warm"]) by (vm_compute; reflexivity).
  split; [exact Hg|]. split; [exact Hs|].
  rewrite (toggleChatParam_selection Fixtures.catalog "tone" "professional" st Hg).
  rewrite Hs. reflexivity.
Defined.

Lemma toggleChatParam_twice_witness :
  let st := inputChatParam "tone" "warm" (Fixtures.chatWith [Fixtures.tone]) in
  goodItem "warm" ∧
  ("warm" ∈ chatSelection "tone"
              (toggleChatParam Fixtures.catalog "tone" "warm"
                 (toggleChatParam Fixtures.catalog "tone" "warm" st))).
Proof.
  intros st.
  assert (Hg : goodItem "warm") by (by repeat split).
  split; [exact Hg|].
  apply (toggleChatParam_twice Fixtures.catalog "tone" "warm" st Hg "warm").
  vm_compute. apply list_elem_of_here.
Defined.


(* ================================================================== *)
(** ** Selection and payload: how the handlers compose *)
(* ================================================================== *)

Section CompositionProperties.

Variable fetchTool : string → option ToolDetail.

(** X8.  What is typed in is what is deployed: for a tool id and a key
    that are not names every object inherits, right after [setParam] the
    payload has an element for the tool (active before or not) whose map
    of that section holds the value under the key, declared or not. *)
Theorem setParam_reaches_payload toolId sec key value st :
  plainName toolId → plainName key →
  ∃ t, t ∈ p_tools (deployPayload (setParam toolId sec key value st)) ∧
       tp_tool_id t = toolId ∧
       tp_section t sec !! key = Some value.
Proof.
  intros Hplain _.
  set (st' := setParam toolId sec key value st).
  set (e' := sel_store sec key value (entryOrFresh toolId st)).
  assert (He : selected st' !! toolId = Some e').
  { subst st'. rewrite setParam_selected by (by apply raisesOnTool_plain).
    apply lookup_insert_eq. }
  exists (toolPayload st' (toolId, e')). split; [|split].
  - unfold deployPayload; simpl. apply list_elem_of_fmap.
    exists (toolId, e'). split; [done|]. by apply elem_of_map_to_list.
  - unfold toolPayload. by destruct (toolDetails st' !! toolId).
  - rewrite toolPayload_lookup. subst e'.
    by rewrite sel_store_same, lookup_insert_eq.
Qed.

Lemma setParam_toolDetails toolId sec key value st :
  toolDetails (setParam toolId sec key value st) = toolDetails st.
Proof.
  unfold setParam. destruct (raisesOnTool toolId st); [done|].
  by rewrite (proj1 (proj2 (proj2 (handleShowIf_frame _)))).
Qed.

(** X9.  The two sections are separate name spaces and tools do not share
    overrides: [setParam] changes the live value of its own
    tool/section/key and of no other. *)
Theorem setParam_independent toolId sec key value toolId' sec' key' st :
  (toolId', sec', key') ≠ (toolId, sec, key) →
  currentVal toolId' sec' key' (setParam toolId sec key value st)
    = currentVal toolId' sec' key' st.
Proof.
  intros Hne.
  destruct (raisesOnTool toolId st) eqn:Hr; [by rewrite setParam_raises|].
  unfold currentVal.
  rewrite setParam_selected, setParam_toolDetails by done.
  destruct (decide (toolId' = toolId)) as [->|Ht].
  - rewrite lookup_insert_eq. simpl. unfold entryOrFresh.
    destruct (decide (sec' = sec)) as [->|Hs].
    + rewrite sel_store_same, lookup_insert_ne by congruence.
      destruct (selected st !! toolId) as [e|]; simpl; [done|].
      by destruct sec.
    + rewrite sel_store_other by done.
      destruct (selected st !! toolId) as [e|]; simpl; [done|].
      by destruct sec'.
  - by rewrite lookup_insert_ne.
Qed.

(** X10.  Toggling a tool that is not active on and off again gives back the
    selection as it was, and a toggle touches no other tool's entry. *)
Theorem toggleTool_on_off_restores id st :
  (selected st !! id = None →
   selected (toggleTool fetchTool id (toggleTool fetchTool id st)) = selected st) ∧
  (∀ id', id' ≠ id →
          selected (toggleTool fetchTool id st) !! id' = selected st !! id').
Proof.
  split.
  - intros Hnone. rewrite !toggleTool_selected, Hnone, lookup_insert_eq.
    rewrite delete_insert_eq. by apply delete_id.
  - intros id' Hne. rewrite toggleTool_selected.
    destruct (selected st !! id).
    + by rewrite lookup_delete_ne.
    + by rewrite lookup_insert_ne.
Qed.

(** X11.  Filling in defaults keeps every stored value and, done twice, changes
    nothing more. *)
Theorem fillDefaults_keeps_and_idempotent filled fields :
  filled ⊆ fillDefaults filled fields ∧
  fillDefaults (fillDefaults filled fields) fields = fillDefaults filled fields.
Proof.
  split.
  - apply map_subseteq_spec. intros k v Hk.
    by rewrite fillDefaults_lookup, Hk.
  - apply map_eq. intros k. rewrite !fillDefaults_lookup.
    destruct (filled !! k); [done|]. by destruct (fields !! k ≫= pf_default).
Qed.

(** X12.  Where the payload does have the key set of the schema: when every
    declared field of the section has a default and every stored override
    of the section is for a declared key. *)
Theorem toolPayload_keys_exact id e d sec st :
  toolDetails st !! id = Some d →
  (∀ k f, td_section d sec !! k = Some f → is_Some (pf_default f)) →
  dom (sel_section e sec) ⊆ dom (td_section d sec) →
  dom (tp_section (toolPayload st (id, e)) sec) = dom (td_section d sec).
Proof.
  intros Hd Hdef Hsub. apply set_eq. intros k.
  rewrite !elem_of_dom, toolPayload_lookup, Hd. simpl.
  destruct (sel_section e sec !! k) as [v|] eqn:Hk.
  - split; [|by eauto]. intros _. apply elem_of_dom, Hsub, elem_of_dom. by eauto.
  - destruct (td_section d sec !! k) as [f|] eqn:Hf; simpl.
    + split; [by eauto|]. intros _. by apply (Hdef k f).
    + split; by intros [? ?].
Qed.

(** X13.  The payload lists each active tool once and nothing else. *)
Theorem deployPayload_tool_ids st :
  NoDup (tp_tool_id <$> p_tools (deployPayload st)) ∧
  ∀ id, id ∈ (tp_tool_id <$> p_tools (deployPayload st)) ↔ is_Some (selected st !! id).
Proof.
  assert (Hids : tp_tool_id <$> p_tools (deployPayload st)
                 = (map_to_list (selected st)).*1).
  { unfold deployPayload; simpl. rewrite <- list_fmap_compose.
    apply list_fmap_ext. intros _ [i e] _. simpl.
    by destruct (toolDetails st !! i). }
  rewrite Hids. split.
  - apply NoDup_fst_map_to_list.
  - intros id. rewrite list_elem_of_fmap. split.
    + intros ([i e] & -> & Hin). apply elem_of_map_to_list in Hin. by eauto.
    + intros [e He]. exists (id, e). split; [done|]. by apply elem_of_map_to_list.
Qed.

(** X14.  A prompt parameter is deployed only with a non-blank key; the empty
    row that "+ Add Parameter" appends changes nothing in the payload. *)
Theorem deployPayload_prompt_params_keys st :
  (∀ p, p ∈ p_prompt_params (deployPayload st) → truthy (trim (pp_key p)) = true) ∧
  p_prompt_params (deployPayload (addPromptParam fetchTool st))
    = p_prompt_params (deployPayload st).
Proof.
  split.
  - intros p Hp. unfold deployPayload in Hp; simpl in Hp.
    by apply list_elem_of_filter in Hp as [Hp _].
  - unfold deployPayload, addPromptParam; simpl.
    destruct (renderStep_frame fetchTool
                (set_promptParams
                   (promptParams st ++
                      [{| pp_key := ""; pp_label := ""; pp_type := "string";
                          pp_options := []; pp_default := ""; pp_required := false;
                          pp_description := ""; pp_placeholder := "" |}]) st))
      as (_ & Hd & _).
    unfold Spec.draft in Hd. injection Hd as _ _ _ -> _.
    simpl. rewrite filter_app. simpl.
    rewrite filter_cons_False by (simpl; discriminate).
    by rewrite filter_nil, app_nil_r.
Qed.

(* ================================================================== *)
(** ** Parameter step: the details cache and the visibility pass *)
(* ================================================================== *)

Lemma renderToolParams_toolDetails st id :
  toolDetails (renderToolParams fetchTool st) !! id =
    match toolDetails st !! id with
    | Some d => Some d
    | None => if bool_decide (is_Some (selected st !! id)) then fetchTool id else None
    end.
Proof.
  assert (Heq : toolDetails (renderToolParams fetchTool st)
                = fetchMissing fetchTool (map_to_list (selected st)).*1 (toolDetails st)).
  { unfold renderToolParams.
    destruct ((map_to_list (selected st)).*1) as [|i ids]; [done|].
    destruct (forallb _ _); [|done].
    by rewrite (proj1 (proj2 (proj2 (handleShowIf_frame _)))). }
  rewrite Heq, fetchMissing_lookup.
  destruct (toolDetails st !! id); [done|].
  apply (f_equal (λ b : bool, if b then fetchTool id else None)).
  apply bool_decide_ext. symmetry. apply active_toolIds.
Qed.

Lemma renderToolParams_toolDetails_keeps st id d :
  toolDetails st !! id = Some d →
  toolDetails (renderToolParams fetchTool st) !! id = Some d.
Proof. intros Hd. by rewrite renderToolParams_toolDetails, Hd. Qed.

Lemma renderToolParams_loading st id e :
  selected st !! id = Some e → toolDetails st !! id = None → fetchTool id = None →
  page (renderToolParams fetchTool st) = PageLoading.
Proof.
  intros He Hd Hf.
  assert (Hin : id ∈ (map_to_list (selected st)).*1)
    by (apply active_toolIds; by eauto).
  unfold renderToolParams.
  destruct ((map_to_list (selected st)).*1) as [|i ids] eqn:Hids;
    [by apply elem_of_nil in Hin|].
  cbn [toolDetails set_toolDetails].
  destruct (forallb _ _) eqn:Hall; [|done].
  rewrite forallb_forall in Hall.
  specialize (Hall id (proj1 (list_elem_of_In _ _) Hin)).
  apply bool_decide_eq_true in Hall as [d Hd'].
  rewrite fetchMissing_lookup, Hd, bool_decide_eq_true_2, Hf in Hd' by done.
  discriminate Hd'.
Qed.

(** X15.  Entering the parameter step never replaces details already
    cached (a tool edited in the catalog meanwhile keeps its old schema);
    for an active tool without cached details it caches what the fetch
    returns, and when that fetch fails nothing is cached for the tool and
    the page stays on the loading overlay; nothing is cached for a tool
    that is not active. *)
Theorem renderToolParams_caches st id :
  (∀ d, toolDetails st !! id = Some d →
        toolDetails (renderToolParams fetchTool st) !! id = Some d) ∧
  (∀ e, selected st !! id = Some e → toolDetails st !! id = None →
        toolDetails (renderToolParams fetchTool st) !! id = fetchTool id ∧
        (fetchTool id = None → page (renderToolParams fetchTool st) = PageLoading)) ∧
  (selected st !! id = None →
   toolDetails (renderToolParams fetchTool st) !! id = toolDetails st !! id).
Proof.
  split; [|split].
  - apply renderToolParams_toolDetails_keeps.
  - intros e He Hd. split.
    + rewrite renderToolParams_toolDetails, Hd.
      by rewrite bool_decide_eq_true_2 by eauto.
    + by apply (renderToolParams_loading st id e).
  - intros Hnone. rewrite renderToolParams_toolDetails.
    destruct (toolDetails st !! id); [done|].
    rewrite bool_decide_eq_false_2; [done|].
    rewrite Hnone. by intros [? ?].
Qed.

Lemma showIf_same_state st st' g :
  selected st = selected st' → toolDetails st = toolDetails st' →
  showIf st g = showIf st' g.
Proof.
  intros Hs Ht. unfold showIf.
  destruct (fg_showif g) as [[k v]|]; [|done].
  by rewrite (currentVal_ext _ _ _ st st' Hs Ht).
Qed.

Lemma showIf_idemp st g : showIf st (showIf st g) = showIf st g.
Proof.
  unfold showIf. destruct (fg_showif g) as [[k v]|] eqn:Hg; simpl; by rewrite ?Hg.
Qed.

(** X16.  The visibility pass is idempotent: run again on an unchanged state it
    changes nothing. *)
Theorem handleShowIf_idempotent st :
  handleShowIf (handleShowIf st) = handleShowIf st.
Proof.
  unfold handleShowIf.
  destruct (page st) as [| |gs| | | | | |] eqn:Hp; rewrite ?Hp; try done.
  simpl. unfold set_page; simpl. do 2 f_equal.
  rewrite <- list_fmap_compose. apply list_fmap_ext. intros _ g _. simpl.
  rewrite (showIf_same_state _ st (showIf st g)) by done.
  apply showIf_idemp.
Qed.

End CompositionProperties.

(** A key the schema does not declare, typed for the weather tool before
    it is active, is deployed. *)
Lemma setParam_reaches_payload_witness :
  plainName "weather" ∧ plainName "no_such_key" ∧
  ∃ t, t ∈ p_tools (deployPayload
                      (setParam "weather" runtime_params "no_such_key" (JStr "v")
                         initialState)) ∧
       tp_tool_id t = "weather" ∧
       tp_section t runtime_params !! "no_such_key" = Some (JStr "v").
Proof.
  assert (Htool : plainName "weather") by reflexivity.
  assert (Hkey : plainName "no_such_key") by reflexivity.
  split; [exact Htool|]. split; [exact Hkey|].
  exact (setParam_reaches_payload "weather" runtime_params "no_such_key" (JStr "v")
           initialState Htool Hkey).
Defined.

Lemma setParam_independent_witness :
  currentVal "weather" runtime_params "units"
    (setParam "weather" deploy_params "units" (JStr "celsius") Fixtures.weatherSelected)
  = JStr "fahrenheit".
Proof.
  rewrite (setParam_independent "weather" deploy_params "units" (JStr "celsius")
             "weather" runtime_params "units" Fixtures.weatherSelected).
  - by vm_compute.
  - discriminate.
Defined.

Lemma toggleTool_on_off_restores_witness :
  selected (toggleTool Fixtures.catalog "mcp-docs"
              (toggleTool Fixtures.catalog "mcp-docs" Fixtures.weatherSelected))
  = selected Fixtures.weatherSelected ∧
  selected (toggleTool Fixtures.catalog "mcp-docs" Fixtures.weatherSelected) !! "weather"
  = selected Fixtures.weatherSelected !! "weather".
Proof.
  destruct (toggleTool_on_off_restores Fixtures.catalog "mcp-docs"
              Fixtures.weatherSelected) as [Hrestore Hother].
  split.
  - apply Hrestore. vm_compute. reflexivity.
  - apply Hother. discriminate.
Defined.

Lemma toolPayload_keys_exact_witness :
  let d := customTool "Docs" "book" (mcpDeployParams "https://gitmcp.io/o/r" "never") in
  let st := set_toolDetails {["docs" := d]} initialState in
  dom (tp_section (toolPayload st ("docs", freshEntry)) deploy_params)
  = dom (td_section d deploy_params).
Proof.
  intros d st.
  apply (toolPayload_keys_exact "docs" freshEntry d deploy_params st).
  - by vm_compute.
  - intros k f Hk. unfold d, customTool, mcpDeployParams in Hk. simpl in Hk.
    repeat (rewrite lookup_insert in Hk; case_decide;
            [injection Hk as <-; by eexists|]).
    by rewrite lookup_empty in Hk.
  - simpl. rewrite dom_empty_L. apply empty_subseteq.
Defined.

(** The catalog serves the weather tool only.  With both tools active
    and the weather details cached, entering the parameter step keeps the
    cached details, caches nothing for the other tool, whose fetch fails,
    and stays on the loading overlay; with the weather tool alone its
    details are fetched and cached. *)
Lemma renderToolParams_caches_witness :
  let st1 := toggleTool Fixtures.weatherOnly "weather" initialState in
  let st2 := toggleTool Fixtures.weatherOnly "mcp-docs"
               (renderToolParams Fixtures.weatherOnly st1) in
  toolDetails st1 !! "weather" = None ∧
  toolDetails (renderToolParams Fixtures.weatherOnly st1) !! "weather"
    = Some Fixtures.weather ∧
  toolDetails (renderToolParams Fixtures.weatherOnly st2) !! "weather"
    = Some Fixtures.weather ∧
  toolDetails (renderToolParams Fixtures.weatherOnly st2) !! "mcp-docs" = None ∧
  page (renderToolParams Fixtures.weatherOnly st2) = PageLoading.
Proof.
  intros st1 st2.
  assert (H0 : toolDetails st1 !! "weather" = None) by (vm_compute; reflexivity).
  assert (Ha1 : selected st1 !! "weather" = Some freshEntry)
    by (vm_compute; reflexivity).
  assert (Hf1 : Fixtures.weatherOnly "weather" = Some Fixtures.weather)
    by (vm_compute; reflexivity).
  assert (Hc2 : toolDetails st2 !! "weather" = Some Fixtures.weather)
    by (vm_compute; reflexivity).
  assert (Ha2 : selected st2 !! "mcp-docs" = Some freshEntry)
    by (vm_compute; reflexivity).
  assert (Hd2 : toolDetails st2 !! "mcp-docs" = None) by (vm_compute; reflexivity).
  assert (Hf2 : Fixtures.weatherOnly "mcp-docs" = None) by (vm_compute; reflexivity).
  destruct (renderToolParams_caches Fixtures.weatherOnly st1 "weather")
    as (_ & Hfetch1 & _).
  destruct (renderToolParams_caches Fixtures.weatherOnly st2 "weather")
    as (Hkeep2 & _ & _).
  destruct (renderToolParams_caches Fixtures.weatherOnly st2 "mcp-docs")
    as (_ & Hfetch2 & _).
  destruct (Hfetch1 freshEntry Ha1 H0) as [Hw1 _].
  destruct (Hfetch2 freshEntry Ha2 Hd2) as [Hm2 Hload].
  split; [exact H0|].
  split; [rewrite Hw1; exact Hf1|].
  split; [exact (Hkeep2 _ Hc2)|].
  split; [rewrite Hm2; exact Hf2|].
  exact (Hload Hf2).
Defined.

(* ================================================================== *)
(** ** Configuration step: the deploy gate, the parameter builder *)
(* ================================================================== *)

Section ConfigProperties.

Variable fetchTool : string → option ToolDetail.

(** X17.  [goToStep(4)] has two outcomes only.  Either the wizard is on step 4
    with the loading overlay and [state.agentName] and
    [state.instructions] are both non-empty, or the step and the page are
    as they were and one of the two is empty.  The selection is untouched
    either way. *)
Theorem goToStep_4_outcomes st :
  let st' := goToStep fetchTool 4 st in
  selected st' = selected st ∧
  ((step st' = 4 ∧ page st' = PageDeploying ∧
    truthy (agentName st') = true ∧ truthy (instructions st') = true)
   ∨
   (step st' = step st ∧ page st' = page st ∧
    (agentName st' = "" ∨ instructions st' = ""))).
Proof.
  unfold goToStep. rewrite decide_True by done. cbv zeta.
  set (name := trimmedOr (agentNameInput (page st)) (agentName st)).
  set (instr := trimmedOr (agentInstructionsInput (page st)) _).
  cbn [agentName instructions set_agentName set_instructions].
  destruct (truthy name) eqn:Hn; destruct (truthy instr) eqn:Hi; simpl;
    (split; [done|]); try (by left).
  - right. repeat split. right. by destruct instr.
  - right. repeat split. left. by destruct name.
  - right. repeat split. left. by destruct name.
Qed.

Lemma goToStep_4_with_inputs n i d st :
  page st = PageConfig n i d →
  truthy (trim n) = true → truthy (trim i) = true →
  let st' := goToStep fetchTool 4 st in
  step st' = 4 ∧
  agentName st' = trim n ∧ instructions st' = trim i ∧
  p_name (deployPayload st') = trim n ∧
  p_instructions (deployPayload st') = trim i.
Proof.
  intros Hp Hn Hi. unfold goToStep. rewrite decide_True by done. cbv zeta.
  rewrite Hp. cbn [agentNameInput agentInstructionsInput trimmedOr].
  unfold or_else. rewrite Hn, Hi.
  cbn [agentName instructions set_agentName set_instructions].
  rewrite Hn, Hi. simpl. by rewrite !trim_idemp.
Qed.

(** X18.  With both inputs of the form non-blank after trimming, [goToStep(4)]
    proceeds, stores the trimmed values, and the payload carries exactly
    the trimmed inputs. *)
Theorem goToStep_4_trims_inputs n i d st :
  page st = PageConfig n i d →
  truthy (trim n) = true → truthy (trim i) = true →
  let st' := goToStep fetchTool 4 st in
  step st' = 4 ∧
  agentName st' = trim n ∧ instructions st' = trim i ∧
  p_name (deployPayload st') = trim n ∧
  p_instructions (deployPayload st') = trim i.
Proof. apply goToStep_4_with_inputs. Qed.

(** X19.  Through typing alone the Deploy button is exact: right after the
    [input] listener ran, a click moves the wizard to step 4 exactly when
    both values are non-blank after trimming. *)
Theorem clickDeploy_after_checkReady n i st :
  step st ≠ 4 →
  step (clickDeploy fetchTool (checkReady n i st)) = 4
  ↔ truthy (trim n) = true ∧ truthy (trim i) = true.
Proof.
  intros Hs. unfold clickDeploy, checkReady.
  cbn [page set_page].
  destruct (truthy (trim n)) eqn:Hn; destruct (truthy (trim i)) eqn:Hi; simpl;
    try (split; [intros ?; congruence | by intros [? ?]]).
  split; [done|]. intros _.
  apply (goToStep_4_with_inputs n i false); by simpl.
Qed.

(** X20.  "Update Agent" takes the builder back to step 1 with the parameters
    the chat was using: the draft's own list if it has one, else the list
    of the deployed agent.  The name, model, instructions and selection
    are kept; the chat session is cleared. *)
Theorem updateAgent_carries_prompt_params st :
  let st' := updateAgent fetchTool st in
  promptParams st' = getActivePromptParams st ∧
  step st' = 1 ∧
  (agentName st', agentModel st', instructions st', selected st')
    = (agentName st, agentModel st, instructions st, selected st) ∧
  deployedAgent st' = None ∧ chatHistory st' = [] ∧
  previousResponseId st' = None ∧ chatParamsConfirmed st' = false ∧
  paramValues st' = ∅.
Proof.
  unfold updateAgent, getActivePromptParams.
  destruct (deployedAgent st) as [a|] eqn:Ha;
    destruct (promptParams st) as [|p ps] eqn:Hps; simpl; rewrite ?Hps; try done.
  destruct (ag_prompt_params a) as [|q qs] eqn:Hq; simpl; by rewrite ?Hps.
Qed.

Lemma addPromptParam_promptParams st :
  promptParams (addPromptParam fetchTool st) =
    promptParams st ++
      [{| pp_key := ""; pp_label := ""; pp_type := "string";
          pp_options := []; pp_default := ""; pp_required := false;
          pp_description := ""; pp_placeholder := "" |}].
Proof.
  unfold addPromptParam.
  destruct (renderStep_frame fetchTool
              (set_promptParams
                 (promptParams st ++
                    [{| pp_key := ""; pp_label := ""; pp_type := "string";
                        pp_options := []; pp_default := ""; pp_required := false;
                        pp_description := ""; pp_placeholder := "" |}]) st))
    as (_ & Hd & _).
  unfold Spec.draft in Hd. by injection Hd as _ _ _ Hpp _.
Qed.

Lemma removePromptParam_promptParams index st :
  promptParams (removePromptParam fetchTool index st)
    = delete index (promptParams st).
Proof.
  unfold removePromptParam.
  destruct (renderStep_frame fetchTool
              (set_promptParams (delete index (promptParams st)) st)) as (_ & Hd & _).
  unfold Spec.draft in Hd. by injection Hd as _ _ _ Hpp _.
Qed.

(** X21.  Removing the row that "+ Add Parameter" just appended gives back the
    list of prompt parameters; removing at an index past the end removes
    nothing. *)
Theorem removePromptParam_undoes_add st :
  promptParams
    (removePromptParam fetchTool (length (promptParams st))
       (addPromptParam fetchTool st)) = promptParams st ∧
  ∀ index, length (promptParams st) ≤ index →
           promptParams (removePromptParam fetchTool index st) = promptParams st.
Proof.
  split.
  - rewrite removePromptParam_promptParams.
    rewrite addPromptParam_promptParams.
    induction (promptParams st) as [|p ps IH]; simpl; [done|]. by rewrite IH.
  - intros index Hle. rewrite removePromptParam_promptParams.
    revert index Hle. induction (promptParams st) as [|p ps IH]; intros [|i] Hle;
      simpl in *; try done; try lia.
    f_equal. apply IH. lia.
Qed.

(** X22.  An edit of one field of one row: an index past the end changes
    nothing at all; otherwise the number of rows is kept and every other
    row is as it was. *)
Theorem setPromptParam_one_row index u st :
  (length (promptParams st) ≤ index → setPromptParam fetchTool index u st = st) ∧
  length (promptParams (setPromptParam fetchTool index u st))
    = length (promptParams st) ∧
  (∀ j, j ≠ index →
        promptParams (setPromptParam fetchTool index u st) !! j
          = promptParams st !! j) ∧
  (∀ p, promptParams st !! index = Some p →
        promptParams (setPromptParam fetchTool index u st) !! index
          = Some (updatePromptField u p)).
Proof.
  unfold setPromptParam.
  destruct (promptParams st !! index) as [p|] eqn:Hp.
  - assert (Hpp : promptParams
                    (match u with
                     | SetType _ =>
                         renderStep fetchTool
                           (set_promptParams
                              (<[index := updatePromptField u p]> (promptParams st)) st)
                     | _ => set_promptParams
                              (<[index := updatePromptField u p]> (promptParams st)) st
                     end) = <[index := updatePromptField u p]> (promptParams st)).
    { destruct u; try done.
      destruct (renderStep_frame fetchTool
                  (set_promptParams
                     (<[index := updatePromptField (SetType v) p]> (promptParams st)) st))
        as (_ & Hd & _).
      unfold Spec.draft in Hd. by injection Hd as _ _ _ Hpp _. }
    rewrite Hpp. split; [|split; [|split]].
    + intros Hle. apply lookup_lt_Some in Hp. lia.
    + apply length_insert.
    + intros j Hj. by apply list_lookup_insert_ne.
    + intros q [= <-]. apply list_lookup_insert_eq. by apply lookup_lt_Some in Hp.
  - repeat split; done.
Qed.

(** X23.  The options typed as comma-separated text are stored as a list of
    trimmed, non-empty, comma-free items, and only the options of that
    row change. *)
Theorem setPromptParamOptions_stores_clean_list index value p st :
  promptParams st !! index = Some p →
  ∃ p',
    promptParams (setPromptParamOptions index value st) !! index = Some p' ∧
    pp_options p' = parseList value ∧
    Forall goodItem (pp_options p') ∧
    (pp_key p', pp_label p', pp_type p', pp_default p', pp_required p')
      = (pp_key p, pp_label p, pp_type p, pp_default p, pp_required p).
Proof.
  intros Hp. unfold setPromptParamOptions. rewrite Hp. eexists. split.
  - simpl. apply list_lookup_insert_eq. by apply lookup_lt_Some in Hp.
  - simpl. repeat split. apply parseList_good.
Qed.

End ConfigProperties.

(* ================================================================== *)
(** ** Chat turns *)
(* ================================================================== *)

Section ChatRunProperties.

Lemma sendChat_begin_None input st :
  sendChat_begin input st = None ↔ page st ≠ PageChat ∨ truthy (trim input) = false.
Proof.
  unfold sendChat_begin.
  destruct (page st) eqn:Hp;
    try (split; [intros _; by left | done]).
  destruct (truthy (trim input)).
  - split; [done|]. by intros [?|?].
  - split; [by right | done].
Qed.

Lemma sendChat_begin_sends input st st1 req :
  sendChat_begin input st = Some (st1, req) →
  page st = PageChat ∧
  st1 = set_chatHistory
          (chatHistory st ++
             [{| role := user; content := cq_message req; toolCalls := None |}]) st ∧
  cq_message req = trim input ∧
  truthy (cq_message req) = true ∧
  cq_param_values req = paramValues st ∧
  cq_previous_response_id req = previousResponseId st ∧
  cq_agent_name req = match deployedAgent st with
                      | Some a => or_else (ag_name a) (agentName st)
                      | None => agentName st
                      end.
Proof.
  unfold sendChat_begin. destruct (page st); try done.
  destruct (truthy (trim input)) eqn:Ht; [|done].
  by intros [= <- <-].
Qed.

Lemma sendChat_settle_frame res st :
  paramValues (sendChat_settle res st) = paramValues st ∧
  deployedAgent (sendChat_settle res st) = deployedAgent st ∧
  agentName (sendChat_settle res st) = agentName st ∧
  page (sendChat_settle res st) = page st.
Proof. by destruct res. Qed.





(** X25.  Every request of a run carries a trimmed, non-empty message and the
    same parameter values, those confirmed before the run: the values go
    out with every turn, not only the first. *)
Theorem chatRun_requests turns st req res :
  (req, res) ∈ (chatRun turns st).1 →
  cq_param_values req = paramValues st ∧
  truthy (cq_message req) = true ∧
  trim (cq_message req) = cq_message req.
Proof.
  revert st. induction turns as [|[input r] rest IH]; intros st; simpl.
  - by intros ?%elem_of_nil.
  - destruct (sendChat_begin input st) as [[st1 rq]|] eqn:Hb; [|apply IH].
    apply sendChat_begin_sends in Hb as (_ & -> & Hm & Ht & Hv & _).
    specialize (IH (sendChat_settle r
                      (set_chatHistory
                         (chatHistory st ++
                            [{| role := user; content := cq_message rq;
                                toolCalls := None |}]) st))).
    destruct (chatRun rest _) as [trace st'] eqn:Hrun. simpl in *.
    intros [Heq|Hin]%elem_of_cons.
    + injection Heq as -> ->. repeat split; [done..|].
      rewrite Hm. apply trim_idemp.
    + rewrite (proj1 (sendChat_settle_frame r _)) in IH. by apply IH.
Qed.

Lemma chatEvents_snoc events ev st :
  chatEvents (events ++ [ev]) st = chatEvent (chatEvents events st) ev.
Proof. unfold chatEvents. by rewrite foldl_app. Qed.

(** X26.  A failed answer leaves the continuation token alone, whatever
    was sent and answered before it: the input submitted after it leaves
    in the same request as it would have without the failed answer. *)
Theorem chatEvents_failed_answer_keeps_token events message input st :
  previousResponseId (cs_state (chatEvents (events ++ [EvSettle (ChatErr message)]) st))
    = previousResponseId (cs_state (chatEvents events st)) ∧
  cs_sent (chatEvents (events ++ [EvSettle (ChatErr message); EvSend input]) st)
    = cs_sent (chatEvents (events ++ [EvSend input]) st).
Proof.
  change [EvSettle (ChatErr message); EvSend input]
    with ([EvSettle (ChatErr message)] ++ [EvSend input]).
  rewrite app_assoc, !chatEvents_snoc.
  set (run := chatEvents events st).
  split.
  - simpl. by destruct (cs_pending run).
  - simpl. destruct (cs_pending run) as [|n];
      [by destruct (sendChat_begin input (cs_state run)) as [[? ?]|]|].
    simpl. unfold sendChat_begin. cbn [page set_chatHistory].
    destruct (page (cs_state run)); try done.
    by destruct (truthy (trim input)).
Qed.

(** X27.  Blank inputs are not turns: a run is the run of its non-blank
    inputs. *)
Theorem chatRun_skips_blank turns st :
  chatRun turns st
    = chatRun (filter (λ t, truthy (trim t.1) = true) turns) st.
Proof.
  revert st. induction turns as [|[input res] rest IH]; intros st; [done|].
  destruct (truthy (trim input)) eqn:Ht.
  - rewrite filter_cons_True by done. simpl.
    destruct (sendChat_begin input st) as [[st1 rq]|]; [|apply IH].
    by rewrite IH.
  - rewrite filter_cons_False by (simpl; congruence). simpl.
    rewrite (proj2 (sendChat_begin_None input st)) by (by right). apply IH.
Qed.

End ChatRunProperties.

Lemma goToStep_4_trims_inputs_witness :
  let st := inputInstructions "You are helpful "
              (inputAgentName "  bot-1 " (goToStep Fixtures.catalog 3 initialState)) in
  page st = PageConfig "  bot-1 " "You are helpful " false ∧
  p_name (deployPayload (goToStep Fixtures.catalog 4 st)) = "bot-1" ∧
  p_instructions (deployPayload (goToStep Fixtures.catalog 4 st)) = "You are helpful".
Proof.
  intros st.
  assert (Hp : page st = PageConfig "  bot-1 " "You are helpful " false)
    by (vm_compute; reflexivity).
  destruct (goToStep_4_trims_inputs Fixtures.catalog _ _ _ st Hp eq_refl eq_refl)
    as (_ & _ & _ & Hn & Hi).
  split; [exact Hp|]. split; [exact Hn | exact Hi].
Defined.

Lemma clickDeploy_after_checkReady_witness :
  step (clickDeploy Fixtures.catalog
          (checkReady "bot-1" "You are helpful"
             (goToStep Fixtures.catalog 3 initialState))) = 4.
Proof.
  apply (clickDeploy_after_checkReady Fixtures.catalog "bot-1" "You are helpful").
  - vm_compute. discriminate.
  - split; reflexivity.
Defined.

Lemma setPromptParam_one_row_witness :
  let st := addPromptParam Fixtures.catalog
              (addPromptParam Fixtures.catalog
                 (goToStep Fixtures.catalog 3 initialState)) in
  setPromptParam Fixtures.catalog 2 (SetKey "purpose") st = st ∧
  promptParams (setPromptParam Fixtures.catalog 0 (SetKey "purpose") st) !! 1
    = promptParams st !! 1 ∧
  (pp_key <$> promptParams (setPromptParam Fixtures.catalog 0 (SetKey "purpose") st) !! 0)
    = Some "purpose".
Proof.
  intros st.
  destruct (setPromptParam_one_row Fixtures.catalog 2 (SetKey "purpose") st)
    as (Hout & _).
  destruct (setPromptParam_one_row Fixtures.catalog 0 (SetKey "purpose") st)
    as (_ & _ & Hother & Hrow).
  split; [|split].
  - apply Hout. vm_compute. lia.
  - apply Hother. discriminate.
  - erewrite Hrow; [reflexivity|]. vm_compute. reflexivity.
Defined.

Lemma setPromptParamOptions_stores_clean_list_witness :
  let st := addPromptParam Fixtures.catalog
              (goToStep Fixtures.catalog 3 initialState) in
  ∃ p', promptParams (setPromptParamOptions 0 " formal , casual,, " st) !! 0 = Some p' ∧
        pp_options p' = ["formal"; "casual"].
Proof.
  intros st.
  destruct (setPromptParamOptions_stores_clean_list 0 " formal , casual,, "
              {| pp_key := ""; pp_label := ""; pp_type := "string";
                 pp_options := []; pp_default := ""; pp_required := false;
                 pp_description := ""; pp_placeholder := "" |} st)
    as (p' & Hp' & Hopts & _).
  { vm_compute. reflexivity. }
  exists p'. split; [exact Hp'|]. rewrite Hopts. reflexivity.
Defined.

(** The chat page after the required parameter was given a value and the
    form confirmed. *)
Lemma chatRun_requests_witness :
  let st := confirmChatParams Fixtures.catalog
              (inputChatParam "purpose" "follow-up"
                 (Fixtures.chatWith [Fixtures.purpose])) in
  let turns := [("  hi  ", Fixtures.reply "hello" "resp_1")] in
  let req := {| cq_agent_name := "bot-1"; cq_message := "hi";
                cq_previous_response_id := None;
                cq_param_values := paramValues st |} in
  page st = PageChat ∧
  (req, Fixtures.reply "hello" "resp_1") ∈ (chatRun turns st).1 ∧
  cq_param_values req !! "purpose" = Some "follow-up".
Proof.
  intros st turns req.
  assert (Hp : page st = PageChat) by (vm_compute; reflexivity).
  assert (Hin : (req, Fixtures.reply "hello" "resp_1") ∈ (chatRun turns st).1).
  { vm_compute. apply list_elem_of_here. }
  split; [exact Hp|]. split; [exact Hin|].
  destruct (chatRun_requests turns st req _ Hin) as (Hv & _ & _).
  rewrite Hv. vm_compute. reflexivity.
Defined.

(* ================================================================== *)
(** ** Custom tools, page load, and the earlier script *)
(* ================================================================== *)

Section MoreProperties.

Variable fetchTool : string → option ToolDetail.

Lemma showIf_identity st g :
  fg_tool (showIf st g) = fg_tool g ∧ fg_section (showIf st g) = fg_section g ∧
  fg_key (showIf st g) = fg_key g ∧ fg_showif (showIf st g) = fg_showif g.
Proof. unfold showIf. by destruct (fg_showif g) as [[k v]|] eqn:Hg. Qed.

(** Every form group of the parameter page stands for a field declared by
    the cached schema of its tool, in its section, under its key. *)
Lemma renderToolParams_group_origin st g :
  g ∈ formGroups (page (renderToolParams fetchTool st)) →
  ∃ d f, toolDetails (renderToolParams fetchTool st) !! fg_tool g = Some d ∧
         td_section d (fg_section g) !! fg_key g = Some f ∧
         fg_showif g = pf_show_if f.
Proof.
  unfold renderToolParams.
  destruct ((map_to_list (selected st)).*1) as [|i ids] eqn:Hids.
  { by intros ?%elem_of_nil. }
  cbn [toolDetails set_toolDetails].
  destruct (forallb _ _); [|by intros ?%elem_of_nil].
  unfold handleShowIf. cbn [page set_page set_toolDetails toolDetails formGroups].
  intros Hg. apply list_elem_of_fmap in Hg as (g0 & -> & Hg0).
  apply list_elem_of_bind in Hg0 as (j & Hg0 & _).
  unfold renderTool in Hg0.
  destruct (fetchMissing fetchTool (i :: ids) (toolDetails st) !! j) as [d|] eqn:Hd;
    [|by apply elem_of_nil in Hg0].
  destruct (showIf_identity
              (set_page
                 (PageParams (mbind (renderTool (fetchMissing fetchTool (i :: ids)
                                                   (toolDetails st))) (i :: ids)))
                 (set_toolDetails (fetchMissing fetchTool (i :: ids) (toolDetails st)) st))
              g0) as (-> & -> & -> & ->).
  unfold renderSection in Hg0.
  apply elem_of_app in Hg0 as [Hg0|Hg0];
    apply list_elem_of_fmap in Hg0 as ([k f] & -> & Hkf);
    apply elem_of_map_to_list in Hkf; simpl; by exists d, f.
Qed.

(** X28.  A custom OpenAPI tool as [saveToolForm] builds it, selected and not yet
    configured: on the parameter page its connection field is shown
    exactly when the authentication chosen in the form was
    [project_connection]. *)
Theorem openApi_connection_field_visibility id name icon specUrl authType ops st g :
  selected st !! id = Some freshEntry →
  toolDetails st !! id
    = Some (customTool name icon (openApiDeployParams specUrl authType ops)) →
  g ∈ formGroups (page (renderToolParams fetchTool st)) →
  fg_tool g = id → fg_key g = "project_connection_id" →
  (fg_display g = true ↔ authType = "project_connection").
Proof.
  intros He Hd Hg Htool Hkey.
  pose proof (renderToolParams_fresh fetchTool st g Hg) as Hshown.
  destruct (renderToolParams_group_origin st g Hg) as (d & f & Hd' & Hf & Hsi).
  rewrite Htool, (renderToolParams_toolDetails_keeps fetchTool st id _ Hd) in Hd'.
  injection Hd' as <-. rewrite Hkey in Hf.
  assert (Hfield : pf_show_if f = Some ("auth_type", "project_connection")).
  { destruct (fg_section g); simpl in Hf; [|by rewrite lookup_empty in Hf].
    unfold openApiDeployParams in Hf.
    rewrite !lookup_insert_ne in Hf by discriminate.
    rewrite lookup_insert_eq in Hf. by injection Hf as <-. }
  assert (Hsec : fg_section g = deploy_params).
  { destruct (fg_section g); [done|]. simpl in Hf. by rewrite lookup_empty in Hf. }
  unfold shown in Hshown. rewrite Hsi, Hfield, Htool, Hsec in Hshown.
  rewrite Hshown. unfold currentVal.
  destruct (renderToolParams_frame fetchTool st) as (_ & Hdraft & _).
  unfold Spec.draft in Hdraft. injection Hdraft as _ _ _ _ ->.
  rewrite He. simpl. rewrite lookup_empty.
  rewrite (renderToolParams_toolDetails_keeps fetchTool st id _ Hd). simpl.
  unfold openApiDeployParams.
  rewrite !lookup_insert_ne by discriminate.
  rewrite lookup_insert_eq. simpl.
  split; [by intros [= ->] | by intros ->].
Qed.





Lemma legacy_renderToolParams_same st :
  Legacy.renderToolParams fetchTool st = renderToolParams fetchTool st.
Proof.
  unfold Legacy.renderToolParams, renderToolParams.
  destruct ((map_to_list (selected st)).*1) as [|i ids]; [|done].
  by destruct st.
Qed.

Lemma legacy_renderStep_same st :
  step st ≠ 5 → Legacy.renderStep fetchTool st = renderStep fetchTool st.
Proof.
  unfold Legacy.renderStep, renderStep.
  destruct (step st) as [|[|[|[|[|[|n]]]]]]; try done.
  intros _. apply legacy_renderToolParams_same.
Qed.

(** X30.  The earlier script against the builder script.  Leaving step 1 with no
    tool selected is refused by the earlier [goToStep] and permitted by
    the builder's; for every other move that does not enter the chat step
    the two do the same. *)
Theorem legacy_goToStep_vs_builder n st :
  (n = 2 → selected st = ∅ →
     Legacy.goToStep fetchTool n st = st ∧ step (goToStep fetchTool n st) = 2) ∧
  (n ≠ 5 → (n = 2 → selected st ≠ ∅) →
     Legacy.goToStep fetchTool n st = goToStep fetchTool n st).
Proof.
  split.
  - intros -> Hsel. unfold Legacy.goToStep. rewrite decide_True by done.
    split; [done|]. unfold goToStep. simpl. apply renderStep_step.
  - intros Hn Hsel. unfold Legacy.goToStep, goToStep.
    rewrite decide_False by (intros [H1 H2]; by apply Hsel).
    destruct (decide (n = 4)) as [->|H4]; cbv zeta.
    + destruct (negb _ || negb _); [done|]. by apply legacy_renderStep_same.
    + by apply legacy_renderStep_same.
Qed.

End MoreProperties.

Lemma openApi_connection_field_visibility_witness :
  let d := customTool "Orders" "wrench"
             (openApiDeployParams "https://api.example.com/openapi.json"
                "project_connection" ["listOrders"]) in
  let st := set_toolDetails {["orders" := d]}
              (toggleTool Fixtures.catalog "orders" initialState) in
  let g := {| fg_tool := "orders"; fg_section := deploy_params;
              fg_key := "project_connection_id";
              fg_showif := Some ("auth_type", "project_connection");
              fg_display := true |} in
  g ∈ formGroups (page (renderToolParams Fixtures.catalog st)).
Proof.
  intros d st g.
  assert (Hin : ∃ v, {| fg_tool := "orders"; fg_section := deploy_params;
                        fg_key := "project_connection_id";
                        fg_showif := Some ("auth_type", "project_connection");
                        fg_display := v |}
                     ∈ formGroups (page (renderToolParams Fixtures.catalog st))).
  { assert (Hfetch : ∀ id, is_Some (selected st !! id) → toolDetails st !! id = None →
                           is_Some (Fixtures.catalog id)).
    { intros id _ _. unfold Fixtures.catalog. case_decide; by eauto. }
    assert (He : selected st !! "orders" = Some freshEntry)
      by (vm_compute; reflexivity).
    assert (Hd : toolDetails (renderToolParams Fixtures.catalog st) !! "orders" = Some d)
      by (vm_compute; reflexivity).
    assert (Hf : td_section d deploy_params !! "project_connection_id"
                 = Some (plainField "Project Connection" "connection_picker" (JStr "")
                           false [] (Some ("auth_type", "project_connection"))))
      by (vm_compute; reflexivity).
    destruct (renderToolParams_covers Fixtures.catalog st "orders" freshEntry d
                deploy_params "project_connection_id" _ Hfetch He Hd Hf)
      as ([t s k si v] & Hg & Ht & Hs & Hk & Hsi).
    simpl in *. subst. by exists v. }
  destruct Hin as [v Hv].
  pose proof (openApi_connection_field_visibility Fixtures.catalog "orders" "Orders"
                "wrench" "https://api.example.com/openapi.json" "project_connection"
                ["listOrders"] st _ eq_refl eq_refl Hv eq_refl eq_refl) as Hvis.
  simpl in Hvis. assert (v = true) as -> by (by apply Hvis). exact Hv.
Defined.


Lemma legacy_goToStep_vs_builder_witness :
  Legacy.goToStep Fixtures.catalog 2 initialState = initialState ∧
  step (goToStep Fixtures.catalog 2 initialState) = 2 ∧
  Legacy.goToStep Fixtures.catalog 3 Fixtures.weatherSelected
    = goToStep Fixtures.catalog 3 Fixtures.weatherSelected.
Proof.
  destruct (legacy_goToStep_vs_builder Fixtures.catalog 2 initialState) as [Hgate _].
  destruct (legacy_goToStep_vs_builder Fixtures.catalog 3 Fixtures.weatherSelected)
    as [_ Hsame].
  destruct (Hgate eq_refl eq_refl) as [H1 H2].
  split; [exact H1|]. split; [exact H2|].
  apply Hsame; [discriminate | intros H; discriminate H].
Defined.


Lemma editChatParams_keeps_session_witness :
  let st := confirmChatParams Fixtures.catalog
              (inputChatParam "purpose" "follow-up"
                 (Fixtures.chatWith [Fixtures.purpose])) in
  chatParamsConfirmed st = true ∧
  chatParamsConfirmed (editChatParams Fixtures.catalog st) = false ∧
  chatHistory (editChatParams Fixtures.catalog st) = chatHistory st ∧
  paramValues (editChatParams Fixtures.catalog st) !! "purpose" = Some "follow-up".
Proof.
  intros st.
  destruct (editChatParams_keeps_session Fixtures.catalog st)
    as (Hc & Hh & _ & _ & Hv).
  split; [vm_compute; reflexivity|]. split; [exact Hc|]. split; [exact Hh|].
  apply Hv. vm_compute. reflexivity.
Defined.

Lemma removePromptParam_undoes_add_witness :
  let st := addPromptParam Fixtures.catalog
              (goToStep Fixtures.catalog 3 initialState) in
  promptParams (removePromptParam Fixtures.catalog 1 (addPromptParam Fixtures.catalog st))
    = promptParams st ∧
  promptParams (removePromptParam Fixtures.catalog 7 st) = promptParams st.
Proof.
  intros st.
  destruct (removePromptParam_undoes_add Fixtures.catalog st) as [Hundo Hpast].
  split; [exact Hundo|]. apply Hpast. vm_compute. lia.
Defined.
